(** * Population dashboard: the data providers and the view logic of [app.py]

    The dashboard is one Streamlit script.  Three cached providers return
    fixed tables (prefectures, age bands, yearly totals); an [if]/[elif]
    chain on the sidebar selection [data_type] builds one of four views from
    them.  This development embeds the providers and the computed part of
    each view (selections, aggregates, ratios, rendered numbers and chart
    encodings) and proves the properties the specification states about them.

    Representation.
    - A Python [int] and a pandas [int64] cell is a [Z]; a column sum, which
      numpy computes in 64 bits, wraps explicitly ([wrap64]).
    - A Python [float] / numpy [float64] is a primitive binary64 [float];
      [/] and [*] are the IEEE operations [PrimFloat.div] and [PrimFloat.mul].
    - A [str] is a [string] of UTF-8 bytes.
    - A [DataFrame] is the list of its rows in order, each with its index
      label.
    - A statement that can raise returns a [result]. *)

From Stdlib Require Import ZArith List String Ascii Bool Lia.
From Stdlib Require Import Permutation Sorted DecimalString QArith Qabs.
From Stdlib Require Import Floats.PrimFloat Floats.FloatOps Floats.SpecFloat.
From Stdlib Require Floats.FloatAxioms.
From Stdlib Require Import Uint63.
Import ListNotations.

Local Open Scope string_scope.
Local Open Scope Z_scope.

(** ** Exceptions *)

Inductive exn : Type :=
| ValueError
| IndexError
| KeyError.

Inductive result (A : Type) : Type :=
| Ok (a : A)
| Raise (e : exn).

Arguments Ok {A} a.
Arguments Raise {A} e.

Definition bind {A B : Type} (r : result A) (k : A -> result B) : result B :=
  match r with
  | Ok a => k a
  | Raise e => Raise e
  end.

Notation "x <- r ;; k" := (bind r (fun x => k))
  (at level 61, r at next level, right associativity).

(** ** Machine numbers *)

(** Two's-complement reduction to 64 bits, as numpy's [int64] arithmetic
    does on overflow. *)
Definition wrap64 (z : Z) : Z := (z + 2 ^ 63) mod 2 ^ 64 - 2 ^ 63.

(** Conversion of an [int64] to [float64] (round to nearest even; exact
    below 2^53). *)
Definition float_of_int (z : Z) : float :=
  let mag (n : Z) : float :=
    if n <? 2 ^ 63 then PrimFloat.of_uint63 (Uint63.of_Z n)
    else PrimFloat.mul (PrimFloat.of_uint63 (Uint63.of_Z (2 ^ 62))) 2%float in
  match z with
  | Z0 => PrimFloat.zero
  | Zpos _ => mag z
  | Zneg _ => PrimFloat.opp (mag (- z))
  end.

(** [a / b] on integers: true division, a float. *)
Definition truediv (a b : Z) : float :=
  PrimFloat.div (float_of_int a) (float_of_int b).

(** Nearest integer to [n / d] for [d > 0], ties to the even one. *)
Definition round_half_even (n d : Z) : Z :=
  let q := n / d in
  let r := n mod d in
  match 2 * r ?= d with
  | Lt => q
  | Gt => q + 1
  | Eq => if Z.even q then q else q + 1
  end.

(** The exact value of a finite float as [m * 2^e]. *)
Definition dyadic (x : float) : option (Z * Z) :=
  match Prim2SF x with
  | S754_zero _ => Some (0, 0)
  | S754_finite s m e => Some (if s then Zneg m else Zpos m, e)
  | S754_infinity _ => None
  | S754_nan => None
  end.

Definition sign_bit (x : float) : bool :=
  match Prim2SF x with
  | S754_zero s => s
  | S754_finite s _ _ => s
  | S754_infinity s => s
  | S754_nan => false
  end.

(** [x * 10^k] rounded to the nearest integer, ties to even, computed on
    the exact binary value of [x]. *)
Definition round_scaled (k : nat) (x : float) : option Z :=
  match dyadic x with
  | Some (m, e) =>
      let n := m * 10 ^ Z.of_nat k in
      Some (if 0 <=? e then n * 2 ^ e else round_half_even n (2 ^ (- e)))
  | None => None
  end.

(** C [rint]: the nearest integral float, ties to even. *)
Definition rint (x : float) : float :=
  match round_scaled 0 x with
  | Some n =>
      if n =? 0 then (if sign_bit x then PrimFloat.opp PrimFloat.zero else PrimFloat.zero)
      else if Z.abs n <? 2 ^ 53 then float_of_int n
      else x
  | None => x
  end.

(** numpy's [round(decimals)] on a float: scale, [rint], scale back. *)
Definition np_round (decimals : nat) (x : float) : float :=
  let p := float_of_int (10 ^ Z.of_nat decimals) in
  PrimFloat.div (rint (PrimFloat.mul x p)) p.

(** ** Rendering numbers *)

Definition str_int (z : Z) : string := NilZero.string_of_int (Z.to_int z).

Fixpoint zeros (n : nat) : string :=
  match n with
  | O => EmptyString
  | S n' => String "0" (zeros n')
  end.

(** The digits of [n >= 0] with a decimal point before the last [k]. *)
Definition fixed_digits (k : nat) (n : Z) : string :=
  let p := 10 ^ Z.of_nat k in
  let frac := str_int (n mod p) in
  match k with
  | O => str_int n
  | S _ => (str_int (n / p) ++ "." ++ zeros (k - String.length frac) ++ frac)%string
  end.

(** [format(x, ".kf")]: [x] correctly rounded to [k] decimals. *)
Definition format_f (k : nat) (x : float) : string :=
  match round_scaled k x with
  | Some n => ((if sign_bit x then "-" else "") ++ fixed_digits k (Z.abs n))%string
  | None =>
      match Prim2SF x with
      | S754_nan => "nan"
      | _ => if sign_bit x then "-inf" else "inf"
      end
  end.

(** Exact comparison of the decimal [n / 10^d] with the midpoint of two
    finite floats given as [a * 2^ea] and [b * 2^eb]. *)
Definition compare_with_midpoint (n : Z) (d : nat) (a b : Z * Z) : comparison :=
  let '(ma, ea) := a in
  let '(mb, eb) := b in
  let emin := Z.min ea eb in
  let s := ma * 2 ^ (ea - emin) + mb * 2 ^ (eb - emin) in
  let k := emin - 1 in
  if 0 <=? k then n ?= s * 2 ^ k * 10 ^ Z.of_nat d
  else n * 2 ^ (- k) ?= s * 10 ^ Z.of_nat d.

(** Does the decimal [n / 10^d] convert back to the float [x] (round to
    nearest, ties to the even mantissa)? *)
Definition reads_back (x : float) (d : nat) (n : Z) : bool :=
  match dyadic x, dyadic (PrimFloat.next_down x), dyadic (PrimFloat.next_up x) with
  | Some (m, e), Some lo, Some hi =>
      match compare_with_midpoint n d lo (m, e), compare_with_midpoint n d (m, e) hi with
      | Gt, Lt => true
      | Eq, Lt => Z.even m
      | Gt, Eq => Z.even m
      | _, _ => false
      end
  | _, _, _ => false
  end.

(** The least number of decimals, from [d] on, at which [x] reads back. *)
Fixpoint shortest_decimals (fuel d : nat) (x : float) : nat :=
  match fuel with
  | O => d
  | S fuel' =>
      match round_scaled d x with
      | Some n => if reads_back x d n then d else shortest_decimals fuel' (S d) x
      | None => d
      end
  end.

(** [str(x)] of a float: the shortest decimal that reads back as [x], with
    at least one decimal.  Python switches to exponent notation below 1e-4
    and from 1e16 on; this covers the fixed notation in between. *)
Definition str_float (x : float) : string :=
  format_f (shortest_decimals 25 1 x) x.

(** [pat in s]: substring test (a regular expression without
    metacharacters, as [str.contains] receives here, matches as a
    substring). *)
Fixpoint contains (pat s : string) : bool :=
  String.prefix pat s ||
  match s with
  | EmptyString => false
  | String _ s' => contains pat s'
  end.

(** ** Data frames *)

(** The rows of a frame in order, each with its index label. *)
Definition frame (R : Type) : Type := list (nat * R).

(** A frame built from columns gets the labels 0, 1, 2, ... *)
Definition range_index {R : Type} (rows : list R) : frame R :=
  combine (seq 0 (List.length rows)) rows.

Definition column {R K : Type} (key : R -> K) (df : frame R) : list K :=
  map (fun r => key (snd r)) df.

(** [Series.sum] of an [int64] column. *)
Definition series_sum (col : list Z) : Z := wrap64 (fold_left Z.add col 0).

(** [df[mask]]: the rows the mask keeps, labels unchanged. *)
Definition mask {R : Type} (p : R -> bool) (df : frame R) : frame R :=
  filter (fun r => p (snd r)) df.

(** [Series.idxmax]: the label of the first occurrence of the maximum;
    [ValueError] on an empty column. *)
Fixpoint argmax_from (best : nat * Z) (col : list (nat * Z)) : nat * Z :=
  match col with
  | [] => best
  | c :: col' => if snd best <? snd c then argmax_from c col' else argmax_from best col'
  end.

Definition idxmax (col : list (nat * Z)) : result nat :=
  match col with
  | [] => Raise ValueError
  | c :: col' => Ok (fst (argmax_from c col'))
  end.

(** [df.loc[label]]: the row with that label; [KeyError] when there is
    none. *)
Definition loc {R : Type} (label : nat) (df : frame R) : result R :=
  match find (fun r => Nat.eqb (fst r) label) df with
  | Some r => Ok (snd r)
  | None => Raise KeyError
  end.

(** [Series.iloc[0]] and [Series.iloc[-1]]; [IndexError] when empty. *)
Definition iloc_first {A : Type} (col : list A) : result A :=
  match col with
  | [] => Raise IndexError
  | a :: _ => Ok a
  end.

Definition iloc_last {A : Type} (col : list A) : result A :=
  iloc_first (rev col).

(** *** Selecting the n largest or smallest rows

    [nlargest(n, col)] and [nsmallest(n, col)] with the default
    [keep="first"] return the first [n] rows of the frame sorted on the
    column (descending or ascending), rows with equal values staying in
    source order.  The sort is an insertion sort from the right, which is
    stable; [before a b] says that [a] may stand before [b]. *)
Section StableSort.
Context {A : Type} (before : A -> A -> bool).

Fixpoint insert_sorted (a : A) (l : list A) : list A :=
  match l with
  | [] => [a]
  | b :: l' => if before a b then a :: l else b :: insert_sorted a l'
  end.

Fixpoint stable_sort (l : list A) : list A :=
  match l with
  | [] => []
  | a :: l' => insert_sorted a (stable_sort l')
  end.
End StableSort.

Definition nlargest_int {R : Type} (n : nat) (key : R -> Z) (df : frame R) : frame R :=
  firstn n (stable_sort (fun a b => key (snd b) <=? key (snd a)) df).

Definition nsmallest_int {R : Type} (n : nat) (key : R -> Z) (df : frame R) : frame R :=
  firstn n (stable_sort (fun a b => key (snd a) <=? key (snd b)) df).

Definition isnan (x : float) : bool := negb (PrimFloat.eqb x x).

(** On a float column the rows holding NaN are set aside and follow the
    sorted rows, in source order. *)
Definition sorted_descending {R : Type} (key : R -> float) (df : frame R) : frame R :=
  let present := mask (fun r => negb (isnan (key r))) df in
  let missing := mask (fun r => isnan (key r)) df in
  (stable_sort (fun a b => PrimFloat.leb (key (snd b)) (key (snd a))) present
   ++ missing)%list.

Definition nlargest_float {R : Type} (n : nat) (key : R -> float) (df : frame R) : frame R :=
  firstn n (sorted_descending key df).

(** ** Chart descriptions

    What a [plotly.express] call is given: the frame and the names of the
    columns bound to each encoding. *)

Inductive chart_kind : Type :=
| Scatter
| Bar
| Line
| Pie.

Record figure (R : Type) : Type := {
  kind : chart_kind;
  data_frame : frame R;
  x : option string;
  y : option string;
  size : option string;
  color : option string;
  hover_name : option string;
  orientation : option string;
  title : string;
  color_continuous_scale : option string
}.

Arguments kind {R} _.
Arguments data_frame {R} _.
Arguments x {R} _.
Arguments y {R} _.
Arguments size {R} _.
Arguments color {R} _.
Arguments hover_name {R} _.
Arguments orientation {R} _.
Arguments title {R} _.
Arguments color_continuous_scale {R} _.

(** [px.scatter] with a [size] column: marker sizes must not be negative,
    and the call raises [ValueError] when an entry of the column is.  The
    other chart calls of the script bind no size. *)
Definition px_scatter {R : Type} (size_column : list Z) (description : figure R)
  : result (figure R) :=
  if forallb (fun z => 0 <=? z) size_column then Ok description
  else Raise ValueError.

(** ** The dataset providers *)

(** A row of the prefecture table; the columns are 都道府県, 人口, 面積 and
    人口密度. *)
Record pref_row : Type := {
  prefecture : string;
  population : Z;
  area : Z;
  density : float
}.

Definition pref_frame (c1 : list string) (c2 c3 : list Z) (c4 : list float)
  : frame pref_row :=
  range_index
    (map (fun '(n, p, a, d) =>
            {| prefecture := n; population := p; area := a; density := d |})
         (combine (combine (combine c1 c2) c3) c4)).

Module PrefectureData.

Definition prefectures : list string := [
  "北海道"; "青森県"; "岩手県"; "宮城県"; "秋田県"; "山形県"; "福島県";
  "茨城県"; "栃木県"; "群馬県"; "埼玉県"; "千葉県"; "東京都"; "神奈川県";
  "新潟県"; "富山県"; "石川県"; "福井県"; "山梨県"; "長野県"; "岐阜県";
  "静岡県"; "愛知県"; "三重県"; "滋賀県"; "京都府"; "大阪府"; "兵庫県";
  "奈良県"; "和歌山県"; "鳥取県"; "島根県"; "岡山県"; "広島県"; "山口県";
  "徳島県"; "香川県"; "愛媛県"; "高知県"; "福岡県"; "佐賀県"; "長崎県";
  "熊本県"; "大分県"; "宮崎県"; "鹿児島県"; "沖縄県"
].

Definition populations : list Z := [
  5224614; 1237984; 1210534; 2301996; 959502; 1068027; 1833152;
  2867009; 1933146; 1939110; 7344765; 6287734; 14047594; 9237337;
  2201272; 1034814; 1132526; 766863; 809974; 2048011; 1978742;
  3633202; 7542415; 1770254; 1413610; 2578087; 8837685; 5465002;
  1324473; 922584; 553407; 671602; 1888432; 2799702; 1342059;
  728633; 950244; 1334841; 691527; 5135214; 811442; 1312317;
  1738301; 1123852; 1069576; 1588256; 1467480
].

Definition areas : list Z := [
  83424; 9646; 15275; 7282; 11638; 9323; 13784;
  6097; 6408; 6362; 3798; 5158; 2194; 2416;
  12584; 4248; 4186; 4190; 4465; 13562; 10621;
  7777; 5173; 5774; 4017; 4612; 1905; 8401;
  3691; 4725; 3507; 6708; 7115; 2833; 6112;
  4147; 1877; 5676; 7103; 4988; 832; 1311;
  7409; 6341; 7735; 9187; 2281
].

End PrefectureData.

(** The four columns have 47 entries each, so the frame constructor, which
    raises on columns of different lengths, always succeeds here. *)
Definition load_prefecture_data : frame pref_row :=
  pref_frame PrefectureData.prefectures
             PrefectureData.populations
             PrefectureData.areas
             (map (fun '(pop, area) => truediv pop area)
                  (combine PrefectureData.populations PrefectureData.areas)).

(** A row of the age table; the columns are 年齢層 and 人口. *)
Record age_row : Type := {
  age_group : string;
  age_population : Z
}.

Definition age_frame (c1 : list string) (c2 : list Z) : frame age_row :=
  range_index
    (map (fun '(g, p) => {| age_group := g; age_population := p |})
         (combine c1 c2)).

Module AgeData.

Definition age_groups : list string := [
  "0-9歳"; "10-19歳"; "20-29歳"; "30-39歳"; "40-49歳";
  "50-59歳"; "60-69歳"; "70-79歳"; "80-89歳"; "90歳以上"
].

Definition populations : list Z := [
  9500000; 11200000; 12800000; 14500000; 16800000;
  17200000; 16500000; 12400000; 8100000; 2500000
].

End AgeData.

Definition load_age_data : frame age_row :=
  age_frame AgeData.age_groups AgeData.populations.

(** A row of the time series; the columns are 年 and 総人口. *)
Record year_row : Type := {
  year : Z;
  total_population : Z
}.

Module TimeSeriesData.

(** [list(range(2010, 2024))] *)
Definition years : list Z := map Z.of_nat (seq 2010 (2024 - 2010)).

Definition total_pop : list Z := [
  128057000; 127799000; 127515000; 127298000; 127095000;
  126933000; 126706000; 126443000; 126167000; 125836000;
  125502000; 125124000; 124777000; 124612000
].

End TimeSeriesData.

Definition load_time_series_data : frame year_row :=
  range_index
    (map (fun '(y, p) => {| year := y; total_population := p |})
         (combine TimeSeriesData.years TimeSeriesData.total_pop)).

(** ** Prefecture view *)

(** [df[[...]]]: the chosen columns of each row, labels unchanged. *)
Definition select_columns {R S : Type} (cols : R -> S) (df : frame R) : frame S :=
  map (fun r => (fst r, cols (snd r))) df.

Definition name_and_population (r : pref_row) : string * Z :=
  (prefecture r, population r).

Definition top_10 (df_pref : frame pref_row) : frame (string * Z) :=
  select_columns name_and_population (nlargest_int 10 population df_pref).

Definition bottom_10 (df_pref : frame pref_row) : frame (string * Z) :=
  select_columns name_and_population (nsmallest_int 10 population df_pref).

Record prefecture_view : Type := {
  pv_fig : figure pref_row;
  pv_top_10 : frame (string * Z);
  pv_bottom_10 : frame (string * Z)
}.

(** The scatter chart is built first: when it raises, nothing after it in
    the view is reached. *)
Definition prefecture_content (df_pref : frame pref_row) : result prefecture_view :=
  f <- px_scatter (column population df_pref)
         {| kind := Scatter; data_frame := df_pref;
            x := Some "都道府県"; y := Some "人口";
            size := Some "人口"; color := Some "人口密度";
            hover_name := Some "都道府県"; orientation := None;
            title := "都道府県別人口分布";
            color_continuous_scale := Some "Viridis" |} ;;
  Ok {| pv_fig := f;
        pv_top_10 := top_10 df_pref;
        pv_bottom_10 := bottom_10 df_pref |}.

(** ** Age view *)

Definition detailed : string := "詳細（10歳間隔）".
Definition traditional : string := "従来分類（年少・生産年齢・高齢）".

Definition isin (values : list string) (s : string) : bool :=
  existsb (String.eqb s) values.

Definition young_bands : list string := ["0-9歳"; "10-19歳"].
Definition working_bands : list string := ["20-29歳"; "30-39歳"; "40-49歳"; "50-59歳"].
Definition elderly_bands : list string := ["60-69歳"; "70-79歳"; "80-89歳"; "90歳以上"].

Definition band_sum (bands : list string) (df_age : frame age_row) : Z :=
  series_sum (column age_population (mask (fun r => isin bands (age_group r)) df_age)).

Definition young (df_age : frame age_row) : Z := band_sum young_bands df_age.
Definition working (df_age : frame age_row) : Z := band_sum working_bands df_age.
Definition elderly (df_age : frame age_row) : Z := band_sum elderly_bands df_age.

Definition df_display (view_type : string) (df_age : frame age_row) : frame age_row :=
  if String.eqb view_type traditional then
    age_frame ["年少人口（0-19歳）"; "生産年齢人口（20-59歳）"; "高齢人口（60歳以上）"]
              [young df_age; working df_age; elderly df_age]
  else df_age.

Definition total_pop (view_type : string) (df_age : frame age_row) : Z :=
  series_sum (column age_population (df_display view_type df_age)).

Definition max_group (view_type : string) (df_age : frame age_row) : result age_row :=
  let shown := df_display view_type df_age in
  i <- idxmax (map (fun r => (fst r, age_population (snd r))) shown) ;;
  loc i shown.

Definition elderly_60plus (df_age : frame age_row) : Z := band_sum elderly_bands df_age.

Definition elderly_ratio (view_type : string) (df_age : frame age_row) : float :=
  if String.eqb view_type traditional then
    PrimFloat.mul
      (truediv
         (series_sum (column age_population
                        (mask (fun r => contains "高齢" (age_group r))
                              (df_display view_type df_age))))
         (total_pop view_type df_age))
      (float_of_int 100)
  else
    PrimFloat.mul
      (truediv (elderly_60plus df_age) (total_pop view_type df_age))
      (float_of_int 100).

Definition elderly_label (view_type : string) : string :=
  if String.eqb view_type traditional then "高齢化率" else "高齢化率（60歳以上）".

Definition elderly_text (view_type : string) (df_age : frame age_row) : string :=
  (format_f 1 (elderly_ratio view_type df_age) ++ "%")%string.

(** A row of the detail table: the shown row with the columns 構成比 and
    構成比表示 added. *)
Record detail_row : Type := {
  shown : age_row;
  share : float;
  share_text : string
}.

Definition share_of (total population : Z) : float :=
  np_round 1 (PrimFloat.mul (truediv population total) (float_of_int 100)).

Definition detail_table (view_type : string) (df_age : frame age_row) : frame detail_row :=
  let display := df_display view_type df_age in
  let total := series_sum (column age_population display) in
  map (fun r =>
         let s := share_of total (age_population (snd r)) in
         (fst r, {| shown := snd r; share := s; share_text := (str_float s ++ "%")%string |}))
      display.

(** The pie chart is drawn from the same frame as the bar chart and is not
    described separately. *)
Record age_view : Type := {
  av_bar : figure age_row;
  av_pyramid : option (figure age_row);
  av_total_pop : Z;
  av_max_group : age_row;
  av_elderly_label : string;
  av_elderly_ratio : float;
  av_elderly_text : string;
  av_table : frame detail_row
}.

Definition age_content (view_type : string) (df_age : frame age_row) : result age_view :=
  let display := df_display view_type df_age in
  let pyramid :=
    if String.eqb view_type detailed then
      Some {| kind := Bar;
              data_frame :=
                stable_sort (fun a b => String.leb (age_group (snd a)) (age_group (snd b)))
                            df_age;
              x := Some "人口"; y := Some "年齢層";
              size := None; color := Some "人口"; hover_name := None;
              orientation := Some "h";
              title := "年齢別人口分布（人口ピラミッド風）";
              color_continuous_scale := Some "Blues" |}
    else None in
  top <- max_group view_type df_age ;;
  Ok {| av_bar :=
          {| kind := Bar; data_frame := display;
             x := Some "年齢層"; y := Some "人口";
             size := None; color := Some "年齢層"; hover_name := None;
             orientation := None;
             title := ("年齢層別人口数 (" ++ view_type ++ ")")%string;
             color_continuous_scale := None |};
        av_pyramid := pyramid;
        av_total_pop := total_pop view_type df_age;
        av_max_group := top;
        av_elderly_label := elderly_label view_type;
        av_elderly_ratio := elderly_ratio view_type df_age;
        av_elderly_text := elderly_text view_type df_age;
        av_table := detail_table view_type df_age |}.

(** ** Trend view *)

Definition change (df_time : frame year_row) : result Z :=
  last <- iloc_last (column total_population df_time) ;;
  first <- iloc_first (column total_population df_time) ;;
  Ok (wrap64 (last - first)).

Definition annual_change (df_time : frame year_row) : result float :=
  c <- change df_time ;;
  Ok (truediv c (Z.of_nat (List.length df_time))).

Definition change_rate (df_time : frame year_row) : result float :=
  c <- change df_time ;;
  first <- iloc_first (column total_population df_time) ;;
  Ok (PrimFloat.mul (truediv c first) (float_of_int 100)).

Record trend_view : Type := {
  tv_fig : figure year_row;
  tv_last : Z;
  tv_change : Z;
  tv_annual_change : float;
  tv_annual_change_text : string;
  tv_change_rate : float;
  tv_change_rate_text : string
}.

Definition trend_content (df_time : frame year_row) : result trend_view :=
  last <- iloc_last (column total_population df_time) ;;
  c <- change df_time ;;
  a <- annual_change df_time ;;
  r <- change_rate df_time ;;
  Ok {| tv_fig :=
          {| kind := Line; data_frame := df_time;
             x := Some "年"; y := Some "総人口";
             size := None; color := None; hover_name := None; orientation := None;
             title := "日本の総人口推移（2010-2023年）";
             color_continuous_scale := None |};
        tv_last := last;
        tv_change := c;
        tv_annual_change := a;
        tv_annual_change_text := (format_f 0 a ++ "人")%string;
        tv_change_rate := r;
        tv_change_rate_text := (format_f 1 r ++ "%")%string |}.

(** ** Density view *)

Definition fig (df_pref : frame pref_row) : figure pref_row :=
  {| kind := Bar; data_frame := nlargest_float 20 density df_pref;
     x := Some "人口密度"; y := Some "都道府県";
     size := None; color := Some "人口密度"; hover_name := None;
     orientation := Some "h";
     title := "人口密度トップ20都道府県";
     color_continuous_scale := Some "Reds" |}.

Definition fig2 (df_pref : frame pref_row) : result (figure pref_row) :=
  px_scatter (column population df_pref)
    {| kind := Scatter; data_frame := df_pref;
       x := Some "人口"; y := Some "人口密度";
       size := Some "人口"; color := Some "人口密度";
       hover_name := Some "都道府県"; orientation := None;
       title := "人口と人口密度の関係";
       color_continuous_scale := Some "Viridis" |}.

Record density_view : Type := {
  dv_fig : figure pref_row;
  dv_fig2 : figure pref_row
}.

(** The bar chart is drawn before the scatter chart is built. *)
Definition density_content (df_pref : frame pref_row) : result density_view :=
  let ranking := fig df_pref in
  scatter <- fig2 df_pref ;;
  Ok {| dv_fig := ranking; dv_fig2 := scatter |}.

(** ** The view dispatcher *)

Inductive view : Type :=
| PrefectureView (v : prefecture_view)
| AgeView (v : age_view)
| TrendView (v : trend_view)
| DensityView (v : density_view).

(** The [if]/[elif] chain on [data_type]; [view_type] is the radio value
    read inside the age branch.  [None] is the fall-through: no branch ran
    and the script goes on to the footer. *)
Definition main_content (data_type view_type : string) : result (option view) :=
  if String.eqb data_type "都道府県別人口" then
    v <- prefecture_content load_prefecture_data ;;
    Ok (Some (PrefectureView v))
  else if String.eqb data_type "年齢別人口" then
    v <- age_content view_type load_age_data ;;
    Ok (Some (AgeView v))
  else if String.eqb data_type "人口推移" then
    v <- trend_content load_time_series_data ;;
    Ok (Some (TrendView v))
  else if String.eqb data_type "人口密度" then
    v <- density_content load_prefecture_data ;;
    Ok (Some (DensityView v))
  else Ok None.

(** ** Summary numbers and their display *)

(** [Series.max] and [Series.min] of an [int64] column; [None] is the NaN
    pandas returns for an empty column. *)
Definition series_max (col : list Z) : option Z :=
  match col with
  | [] => None
  | z :: col' => Some (fold_left Z.max col' z)
  end.

Definition series_min (col : list Z) : option Z :=
  match col with
  | [] => None
  | z :: col' => Some (fold_left Z.min col' z)
  end.

(** Digits from the least significant on, a comma before every fourth;
    [k] digits have been written since the last comma. *)
Fixpoint group_digits (k : nat) (digits : list ascii) : list ascii :=
  match digits with
  | [] => []
  | d :: rest =>
      if Nat.eqb k 3 then "," %char :: d :: group_digits 1 rest
      else d :: group_digits (S k) rest
  end.

(** [format(n, ",")] of an integer: the sign, then the digits in groups of
    three from the right. *)
Definition format_thousands (z : Z) : string :=
  ((if (z <? 0)%Z then "-" else "")
   ++ string_of_list_ascii
        (rev (group_digits 0 (rev (list_ascii_of_string (str_int (Z.abs z)))))))%string.

Definition remove_commas (s : string) : string :=
  string_of_list_ascii
    (filter (fun c => negb (Ascii.eqb c ","%char)) (list_ascii_of_string s)).

Definition format_optional (m : option Z) : string :=
  match m with
  | Some z => format_thousands z
  | None => "nan"
  end.

(** The summary column of the prefecture view: 総人口, 最大人口 and 最小人口
    (the mean, a float accumulation, is not described). *)
Record prefecture_summary : Type := {
  ps_total : Z;
  ps_total_text : string;
  ps_max : option Z;
  ps_max_text : string;
  ps_min : option Z;
  ps_min_text : string
}.

Definition summary (df_pref : frame pref_row) : prefecture_summary :=
  let col := column population df_pref in
  {| ps_total := series_sum col;
     ps_total_text := (format_thousands (series_sum col) ++ "人")%string;
     ps_max := series_max col;
     ps_max_text := (format_optional (series_max col) ++ "人")%string;
     ps_min := series_min col;
     ps_min_text := (format_optional (series_min col) ++ "人")%string |}.

(** The two integer metrics of the trend view as shown. *)
Definition last_text (df_time : frame year_row) : result string :=
  last <- iloc_last (column total_population df_time) ;;
  Ok (format_thousands last ++ "人")%string.

Definition change_text (df_time : frame year_row) : result string :=
  c <- change df_time ;;
  Ok (format_thousands c ++ "人")%string.

(** The mathematical sum of a column. *)
Definition exact_total (col : list Z) : Z := fold_right Z.add 0 col.

(** ** Reading results back as exact numbers *)

(** The exact value of a finite float as a rational (0 stands in for
    infinities and NaN, which no computation on the fixed tables yields). *)
Definition exact_value (x : float) : Q :=
  match dyadic x with
  | Some (m, e) =>
      if 0 <=? e then inject_Z (m * 2 ^ e) else Qmake m (Z.to_pos (2 ^ (- e)))
  | None => 0%Q
  end.

Definition exact_sum (col : list float) : Q :=
  fold_left Qplus (map exact_value col) 0%Q.




(** The number of distinct values of an integer column. *)
Definition distinct_count (col : list Z) : nat :=
  List.length (nodup Z.eq_dec col).

(** The unwrapped sum of the rows whose band a list names. *)
Definition band_total (bands : list string) (df_age : frame age_row) : Z :=
  fold_left Z.add
    (column age_population (mask (fun r => isin bands (age_group r)) df_age)) 0.

(** ** Proof automation *)

Ltac solve_In := simpl; repeat (first [left; reflexivity | right]).


(** Replace the list a [Forall] or [StronglySorted] goal is about by its
    value. *)
Ltac evaluate_list :=
  match goal with
  | |- Forall ?P ?l =>
      let l' := eval vm_compute in l in
      replace l with l' by (vm_compute; reflexivity)
  end.


(** * Properties *)

(** ** Sums in 64 bits *)

Lemma wrap64_add_l (a b : Z) : wrap64 (wrap64 a + b) = wrap64 (a + b).
Proof.
  unfold wrap64.
  replace ((a + 2 ^ 63) mod 2 ^ 64 - 2 ^ 63 + b + 2 ^ 63)
    with ((a + 2 ^ 63) mod 2 ^ 64 + b) by lia.
  rewrite Zplus_mod_idemp_l.
  do 2 f_equal. lia.
Qed.

Lemma wrap64_idem (a : Z) : wrap64 (wrap64 a) = wrap64 a.
Proof.
  transitivity (wrap64 (wrap64 a + 0)).
  - f_equal. lia.
  - rewrite wrap64_add_l. f_equal. lia.
Qed.

Lemma wrap64_add3 (a b c : Z) :
  wrap64 (wrap64 a + wrap64 b + wrap64 c) = wrap64 (a + b + c).
Proof.
  replace (wrap64 a + wrap64 b + wrap64 c)
    with (wrap64 a + (wrap64 b + wrap64 c)) by lia.
  rewrite wrap64_add_l.
  replace (a + (wrap64 b + wrap64 c)) with (wrap64 b + (a + wrap64 c)) by lia.
  rewrite wrap64_add_l.
  replace (b + (a + wrap64 c)) with (wrap64 c + (a + b)) by lia.
  rewrite wrap64_add_l.
  f_equal. lia.
Qed.

Lemma fold_left_add_acc (l : list Z) (a : Z) :
  fold_left Z.add l a = a + fold_left Z.add l 0.
Proof.
  revert a. induction l as [|z l IH]; intros a; simpl.
  - lia.
  - rewrite (IH (a + z)), (IH z). lia.
Qed.

Lemma series_sum_singleton_wrapped (z : Z) : series_sum [wrap64 z] = wrap64 z.
Proof.
  unfold series_sum. simpl. apply wrap64_idem.
Qed.

(** ** The providers *)

Lemma prefecture_columns_aligned :
  List.length PrefectureData.prefectures = 47%nat /\
  List.length PrefectureData.populations = 47%nat /\
  List.length PrefectureData.areas = 47%nat.
Proof. repeat split; reflexivity. Qed.

(** C6: the prefecture provider returns exactly 47 records, built from the
    three source columns, and in every record the density is that record's
    population divided by its area (float division). *)
Theorem load_prefecture_data_density :
  List.length load_prefecture_data = 47%nat /\
  column prefecture load_prefecture_data = PrefectureData.prefectures /\
  column population load_prefecture_data = PrefectureData.populations /\
  column area load_prefecture_data = PrefectureData.areas /\
  Forall (fun r => density (snd r) = truediv (population (snd r)) (area (snd r)))
         load_prefecture_data.
Proof.
  repeat split; try reflexivity.
  repeat constructor.
Qed.

(** ** Density view: the scatter chart *)

(** C1, as stated, fails: the scatter chart of the density view binds the
    point size to the population column, not to the density column. *)
Lemma density_scatter_size_is_not_density :
  ~ (exists chart,
        fig2 load_prefecture_data = Ok chart /\
        data_frame chart = load_prefecture_data /\
        size chart = Some "人口密度" /\
        color chart = Some "人口密度").
Proof.
  intros (chart & Hchart & _ & Hsize & _).
  unfold fig2, px_scatter in Hchart.
  destruct (forallb _ _); [|discriminate Hchart].
  injection Hchart as <-. discriminate Hsize.
Qed.

(** C1, amended: selecting the density view yields a scatter chart of
    population (x) against density (y) over all 47 prefecture records, whose
    point size is bound to the population column and whose colour is bound
    to the density column. *)
Theorem density_scatter_encodings (view_type : string) :
  exists v,
    main_content "人口密度" view_type = Ok (Some (DensityView v)) /\
    kind (dv_fig2 v) = Scatter /\
    data_frame (dv_fig2 v) = load_prefecture_data /\
    List.length (data_frame (dv_fig2 v)) = 47%nat /\
    x (dv_fig2 v) = Some "人口" /\
    y (dv_fig2 v) = Some "人口密度" /\
    size (dv_fig2 v) = Some "人口" /\
    color (dv_fig2 v) = Some "人口密度".
Proof.
  eexists. split.
  - vm_compute. reflexivity.
  - repeat split; vm_compute; reflexivity.
Qed.

(** ** Trend view *)

(** C2: on the fixed series of 14 records for the years 2010..2023 the trend
    view computes change = 124612000 - 128057000 = -3445000, the average
    annual change as change / 14, which rounds to -246071 and is shown so,
    and the percentage change as change / 128057000 * 100, which rounds to
    -2.7 and is shown so. *)
Theorem trend_metrics (view_type : string) :
  List.length load_time_series_data = 14%nat /\
  column year load_time_series_data =
    [2010; 2011; 2012; 2013; 2014; 2015; 2016; 2017; 2018; 2019; 2020; 2021; 2022; 2023] /\
  iloc_first (column total_population load_time_series_data) = Ok 128057000 /\
  iloc_last (column total_population load_time_series_data) = Ok 124612000 /\
  exists v,
    main_content "人口推移" view_type = Ok (Some (TrendView v)) /\
    tv_change v = 124612000 - 128057000 /\
    tv_change v = -3445000 /\
    tv_annual_change v = truediv (-3445000) 14 /\
    round_scaled 0 (tv_annual_change v) = Some (-246071) /\
    tv_annual_change_text v = "-246071人" /\
    tv_change_rate v = PrimFloat.mul (truediv (-3445000) 128057000) (float_of_int 100) /\
    round_scaled 1 (tv_change_rate v) = Some (-27) /\
    tv_change_rate_text v = "-2.7%".
Proof.
  repeat split; try reflexivity.
  eexists. split.
  - vm_compute. reflexivity.
  - repeat split; vm_compute; reflexivity.
Qed.

(** ** The view dispatcher *)

(** C10: a selection outside the four data types falls through the
    [if]/[elif] chain: the script completes without raising and builds none
    of the four views. *)
Theorem main_content_unknown_selection (data_type view_type : string)
  (Hpref : data_type <> "都道府県別人口")
  (Hage : data_type <> "年齢別人口")
  (Htrend : data_type <> "人口推移")
  (Hdens : data_type <> "人口密度") :
  main_content data_type view_type = Ok None.
Proof.
  unfold main_content.
  apply String.eqb_neq in Hpref, Hage, Htrend, Hdens.
  rewrite Hpref, Hage, Htrend, Hdens.
  reflexivity.
Qed.

Lemma main_content_unknown_selection_witness :
  main_content "人口ピラミッド" detailed = Ok None.
Proof.
  apply main_content_unknown_selection; discriminate.
Defined.

(** ** Age view: the traditional classification *)

(** Every band label lies in exactly one of the three membership lists. *)
Lemma band_in_one_group (band : string) :
  In band AgeData.age_groups ->
  (isin young_bands band, isin working_bands band, isin elderly_bands band)
  = (true, false, false) \/
  (isin young_bands band, isin working_bands band, isin elderly_bands band)
  = (false, true, false) \/
  (isin young_bands band, isin working_bands band, isin elderly_bands band)
  = (false, false, true).
Proof.
  intros H. simpl in H.
  repeat (destruct H as [<- | H];
          [vm_compute; first [left; reflexivity | right; left; reflexivity
                              | right; right; reflexivity] |]).
  contradiction.
Qed.

Lemma band_sum_wrap (bands : list string) (df_age : frame age_row) :
  band_sum bands df_age = wrap64 (band_total bands df_age).
Proof. reflexivity. Qed.

Lemma band_total_cons (bands : list string) (r : nat * age_row) (df : frame age_row) :
  band_total bands (r :: df) =
  (if isin bands (age_group (snd r)) then age_population (snd r) else 0)
  + band_total bands df.
Proof.
  unfold band_total, mask, column. simpl.
  destruct (isin bands (age_group (snd r))); simpl.
  - rewrite fold_left_add_acc. reflexivity.
  - reflexivity.
Qed.

Lemma band_totals_cover (df_age : frame age_row) :
  Forall (fun r => In (age_group (snd r)) AgeData.age_groups) df_age ->
  band_total young_bands df_age + band_total working_bands df_age
  + band_total elderly_bands df_age
  = fold_left Z.add (column age_population df_age) 0.
Proof.
  induction 1 as [|r df Hr _ IH].
  - reflexivity.
  - rewrite !band_total_cons.
    unfold column in *. simpl. rewrite fold_left_add_acc, <- IH.
    destruct (band_in_one_group _ Hr) as [E | [E | E]];
      injection E as -> -> ->; lia.
Qed.

Lemma display_traditional (df_age : frame age_row) :
  df_display traditional df_age =
  [ (0%nat, {| age_group := "年少人口（0-19歳）"; age_population := young df_age |});
    (1%nat, {| age_group := "生産年齢人口（20-59歳）"; age_population := working df_age |});
    (2%nat, {| age_group := "高齢人口（60歳以上）"; age_population := elderly df_age |}) ].
Proof.
  unfold df_display. rewrite String.eqb_refl. reflexivity.
Qed.

Lemma detailed_is_not_traditional : String.eqb detailed traditional = false.
Proof. vm_compute. reflexivity. Qed.

Lemma display_detailed (df_age : frame age_row) :
  df_display detailed df_age = df_age.
Proof.
  unfold df_display. rewrite detailed_is_not_traditional. reflexivity.
Qed.

(** C3: the ten band labels are the three membership lists one after the
    other, without repetition, so every band lies in exactly one group; and
    for every table whose rows carry band labels the three group
    populations of the traditional classification add up to the same total
    as the bands themselves. *)
Theorem traditional_groups_partition (df_age : frame age_row)
  (Hbands : Forall (fun r => In (age_group (snd r)) AgeData.age_groups) df_age) :
  AgeData.age_groups = (young_bands ++ working_bands ++ elderly_bands)%list /\
  NoDup AgeData.age_groups /\
  Forall (fun band =>
            (Nat.b2n (isin young_bands band) + Nat.b2n (isin working_bands band)
             + Nat.b2n (isin elderly_bands band) = 1)%nat) AgeData.age_groups /\
  column age_population (df_display traditional df_age)
  = [young df_age; working df_age; elderly df_age] /\
  total_pop traditional df_age = total_pop detailed df_age /\
  total_pop detailed df_age = series_sum (column age_population df_age).
Proof.
  split; [reflexivity|].
  split.
  { repeat (apply NoDup_cons; [simpl; intuition discriminate|]). apply NoDup_nil. }
  split.
  { repeat (apply Forall_cons; [vm_compute; reflexivity|]). apply Forall_nil. }
  split.
  { rewrite display_traditional. reflexivity. }
  split.
  - unfold total_pop. rewrite display_traditional, display_detailed.
    unfold series_sum at 1. cbn [column map snd age_population fold_left].
    unfold young, working, elderly. rewrite !band_sum_wrap.
    rewrite Z.add_0_l, wrap64_add3, band_totals_cover by assumption.
    reflexivity.
  - unfold total_pop. rewrite display_detailed. reflexivity.
Qed.

Lemma traditional_groups_partition_witness :
  Forall (fun r => In (age_group (snd r)) AgeData.age_groups) load_age_data /\
  total_pop traditional load_age_data = total_pop detailed load_age_data.
Proof.
  assert (H : Forall (fun r => In (age_group (snd r)) AgeData.age_groups) load_age_data).
  { repeat (apply Forall_cons; [solve_In|]). apply Forall_nil. }
  split.
  - exact H.
  - apply (traditional_groups_partition load_age_data H).
Defined.

(** ** Age view: the elderly ratio in the two modes *)

(** C9: on the fixed age table the two modes report the same elderly ratio.
    The traditional total equals the detailed total, the elderly group is
    the sum of the four bands from 60 up, and both ratios are that sum
    divided by the sum of all ten bands, times 100. *)
Theorem elderly_ratio_same_in_both_modes :
  total_pop traditional load_age_data = total_pop detailed load_age_data /\
  total_pop detailed load_age_data
  = 9500000 + 11200000 + 12800000 + 14500000 + 16800000
    + 17200000 + 16500000 + 12400000 + 8100000 + 2500000 /\
  elderly load_age_data = 16500000 + 12400000 + 8100000 + 2500000 /\
  mask (fun r => contains "高齢" (age_group r)) (df_display traditional load_age_data)
  = [(2%nat, {| age_group := "高齢人口（60歳以上）";
                age_population := elderly load_age_data |})] /\
  elderly_ratio detailed load_age_data
  = PrimFloat.mul
      (truediv (16500000 + 12400000 + 8100000 + 2500000)
               (9500000 + 11200000 + 12800000 + 14500000 + 16800000
                + 17200000 + 16500000 + 12400000 + 8100000 + 2500000))
      (float_of_int 100) /\
  elderly_ratio traditional load_age_data = elderly_ratio detailed load_age_data /\
  exists vd vt,
    age_content detailed load_age_data = Ok vd /\
    age_content traditional load_age_data = Ok vt /\
    av_elderly_ratio vt = av_elderly_ratio vd /\
    av_elderly_text vt = av_elderly_text vd /\
    av_elderly_text vd = "32.5%".
Proof.
  repeat (split; [vm_compute; reflexivity|]).
  eexists. eexists.
  split; [vm_compute; reflexivity|].
  split; [vm_compute; reflexivity|].
  repeat split; vm_compute; reflexivity.
Qed.

(** ** Age view: the summary metrics *)

(** [argmax_from] returns the first entry holding the maximum: what stands
    before it is strictly smaller, what stands after it is not larger. *)
Lemma argmax_from_spec (col : list (nat * Z)) :
  forall best,
  exists l1 l2,
    best :: col = (l1 ++ argmax_from best col :: l2)%list /\
    Forall (fun c => snd c < snd (argmax_from best col)) l1 /\
    Forall (fun c => snd c <= snd (argmax_from best col)) l2.
Proof.
  induction col as [|c col IH]; intros best; simpl.
  - exists [], []. repeat split; constructor.
  - destruct (snd best <? snd c) eqn:E.
    + apply Z.ltb_lt in E.
      destruct (IH c) as (l1 & l2 & Heq & H1 & H2).
      exists (best :: l1), l2. split; [simpl; rewrite <- Heq; reflexivity|].
      split; [|assumption].
      constructor; [|assumption].
      destruct l1 as [|c' l1]; simpl in Heq; injection Heq as Hc Hrest.
      * rewrite <- Hc. assumption.
      * subst c'. inversion H1; subst. lia.
    + apply Z.ltb_ge in E.
      destruct (IH best) as (l1 & l2 & Heq & H1 & H2).
      destruct l1 as [|b l1]; simpl in Heq; injection Heq as Hb Hrest.
      * exists [], (c :: l2). split; [simpl; rewrite <- Hb, <- Hrest; reflexivity|].
        split; [constructor|].
        constructor; [rewrite <- Hb; assumption | assumption].
      * subst b. exists (best :: c :: l1), l2.
        split; [simpl; do 2 f_equal; exact Hrest|].
        split; [|assumption].
        inversion H1; subst.
        constructor; [assumption|]. constructor; [lia | assumption].
Qed.

Lemma range_index_labels {R : Type} (rows : list R) :
  map fst (range_index rows) = seq 0 (List.length rows).
Proof.
  unfold range_index. generalize 0%nat.
  induction rows as [|r rows IH]; intros s; simpl.
  - reflexivity.
  - rewrite IH. reflexivity.
Qed.

Lemma range_index_NoDup {R : Type} (rows : list R) :
  NoDup (map fst (range_index rows)).
Proof.
  rewrite range_index_labels. apply seq_NoDup.
Qed.

Lemma loc_unique {R : Type} (l1 l2 : frame R) (i : nat) (r : R) :
  NoDup (map fst (l1 ++ (i, r) :: l2)%list) ->
  loc i (l1 ++ (i, r) :: l2)%list = Ok r.
Proof.
  unfold loc. induction l1 as [|[j r'] l1 IH]; simpl; intros Hnd.
  - rewrite Nat.eqb_refl. reflexivity.
  - inversion Hnd as [|? ? Hnotin Hnd']; subst.
    destruct (Nat.eqb j i) eqn:E.
    + apply Nat.eqb_eq in E. subst j. exfalso. apply Hnotin.
      rewrite map_app. apply in_or_app. right. left. reflexivity.
    + apply IH. assumption.
Qed.

(** [idxmax] followed by [loc] on a frame with distinct labels picks the
    first row holding the largest population, and raises only on an empty
    frame. *)
Lemma idxmax_loc_first_max (df : frame age_row) :
  NoDup (map fst df) ->
  match (i <- idxmax (map (fun r => (fst r, age_population (snd r))) df) ;; loc i df) with
  | Ok top =>
      exists before after i,
        df = (before ++ (i, top) :: after)%list /\
        Forall (fun r => age_population (snd r) < age_population top) before /\
        Forall (fun r => age_population (snd r) <= age_population top) after
  | Raise _ => df = []
  end.
Proof.
  intros Hnd. destruct df as [|c rest]; [reflexivity|].
  set (g := fun r : nat * age_row => (fst r, age_population (snd r))).
  pose (m := argmax_from (g c) (map g rest)).
  assert (Hred : (i <- idxmax (map g (c :: rest)) ;; loc i (c :: rest))
                 = loc (fst m) (c :: rest)) by reflexivity.
  rewrite Hred. clear Hred.
  destruct (argmax_from_spec (map g rest) (g c)) as (l1 & l2 & Heq & H1 & H2).
  fold m in Heq, H1, H2.
  change (g c :: map g rest) with (map g (c :: rest)) in Heq.
  apply map_eq_app in Heq. destruct Heq as (b & tl & Hdf & Hb & Htl).
  apply map_eq_cons in Htl. destruct Htl as (x & a & -> & Hx & Ha).
  destruct x as [i top].
  rewrite Hdf in Hnd |- *.
  assert (Hi : fst m = i) by (rewrite <- Hx; reflexivity).
  assert (Hv : snd m = age_population top) by (rewrite <- Hx; reflexivity).
  rewrite Hi, (loc_unique b a i top Hnd).
  exists b, a, i. split; [reflexivity|].
  rewrite Hv in H1, H2. subst l1 l2.
  rewrite Forall_map in H1, H2. split; assumption.
Qed.

Lemma display_labels_NoDup (view_type : string) (rows : list age_row) :
  NoDup (map fst (df_display view_type (range_index rows))).
Proof.
  unfold df_display. destruct (String.eqb view_type traditional).
  - apply range_index_NoDup.
  - apply range_index_NoDup.
Qed.

Lemma mask_elderly_group (y w e : Z) :
  mask (fun r => contains "高齢" (age_group r))
    [ (0%nat, {| age_group := "年少人口（0-19歳）"; age_population := y |});
      (1%nat, {| age_group := "生産年齢人口（20-59歳）"; age_population := w |});
      (2%nat, {| age_group := "高齢人口（60歳以上）"; age_population := e |}) ]
  = [(2%nat, {| age_group := "高齢人口（60歳以上）"; age_population := e |})].
Proof. reflexivity. Qed.

(** C4: in the age view, whatever the mode and the band table, the elderly
    ratio is the elderly population divided by the total of the active set,
    times 100, shown with one decimal; the elderly population is the sum of
    the bands 60-69, 70-79, 80-89 and 90+ in detailed mode and the
    population of the aggregated elderly group in traditional mode; and the
    reported largest band or group is the first row of the active set that
    holds the maximum.  The view raises only when the active set is empty. *)
Theorem age_summary_metrics (view_type : string) (rows : list age_row) :
  let df_age := range_index rows in
  let active := df_display view_type df_age in
  let total := series_sum (column age_population active) in
  let elderly_population :=
    if String.eqb view_type traditional then elderly df_age
    else series_sum
           (column age_population
              (mask (fun r => isin ["60-69歳"; "70-79歳"; "80-89歳"; "90歳以上"]
                                   (age_group r)) df_age)) in
  (if String.eqb view_type traditional
   then nth_error active 2
        = Some (2%nat, {| age_group := "高齢人口（60歳以上）";
                          age_population := elderly df_age |})
   else active = df_age) /\
  match age_content view_type df_age with
  | Ok v =>
      av_total_pop v = total /\
      av_elderly_ratio v
      = PrimFloat.mul (truediv elderly_population total) (float_of_int 100) /\
      av_elderly_text v = (format_f 1 (av_elderly_ratio v) ++ "%")%string /\
      exists before after i,
        active = (before ++ (i, av_max_group v) :: after)%list /\
        Forall (fun r => age_population (snd r) < age_population (av_max_group v)) before /\
        Forall (fun r => age_population (snd r) <= age_population (av_max_group v)) after
  | Raise _ => active = []
  end.
Proof.
  intros df_age active total elderly_population.
  split.
  { subst active. destruct (String.eqb view_type traditional) eqn:E.
    - apply String.eqb_eq in E. subst view_type.
      rewrite display_traditional. reflexivity.
    - unfold df_display. rewrite E. reflexivity. }
  pose proof (idxmax_loc_first_max active (display_labels_NoDup view_type rows)) as Hmax.
  unfold age_content.
  change (max_group view_type df_age)
    with (i <- idxmax (map (fun r => (fst r, age_population (snd r))) active) ;; loc i active).
  destruct (i <- idxmax (map (fun r => (fst r, age_population (snd r))) active) ;; loc i active)
    as [top | e]; cbn [bind]; [|exact Hmax].
  cbn [av_total_pop av_elderly_ratio av_elderly_text av_max_group].
  split; [reflexivity|].
  split; [|split; [reflexivity | exact Hmax]].
  unfold elderly_ratio. subst elderly_population total active.
  destruct (String.eqb view_type traditional) eqn:E; [|reflexivity].
  apply String.eqb_eq in E. subst view_type.
  unfold total_pop. rewrite display_traditional, mask_elderly_group.
  cbn [column map snd age_population].
  unfold elderly. rewrite band_sum_wrap, series_sum_singleton_wrapped.
  reflexivity.
Qed.

(** ** Age view: the percentage-share column *)

(** C8: on the fixed age table, in either mode, the share of a row is its
    population divided by the column total, times 100, rounded to one
    decimal: it is the float nearest to the tenth that the exact quotient
    rounds to.  It is displayed as its shortest decimal followed by "%".
    The exact values of the shares add up to 100 within 0.1 per row: within
    1.0 for the 10 bands and within 0.3 for the 3 groups. *)
Theorem share_column (view_type : string) :
  let display := df_display view_type load_age_data in
  let total := series_sum (column age_population display) in
  let table := detail_table view_type load_age_data in
  map (fun r => (fst r, shown (snd r))) table = display /\
  total = 121500000 /\
  Forall (fun r =>
            share (snd r)
            = np_round 1 (PrimFloat.mul
                            (truediv (age_population (shown (snd r))) total)
                            (float_of_int 100)) /\
            share (snd r)
            = truediv (round_half_even (1000 * age_population (shown (snd r))) total) 10 /\
            share_text (snd r) = (str_float (share (snd r)) ++ "%")%string)
         table /\
  map (fun r => share_text (snd r)) table
  = (if String.eqb view_type traditional
     then ["17.0%"; "50.5%"; "32.5%"]
     else ["7.8%"; "9.2%"; "10.5%"; "11.9%"; "13.8%";
           "14.2%"; "13.6%"; "10.2%"; "6.7%"; "2.1%"]) /\
  List.length table = (if String.eqb view_type traditional then 3%nat else 10%nat) /\
  (Qabs (exact_sum (map (fun r => share (snd r)) table) - 100)
   <= (1 # 10) * inject_Z (Z.of_nat (List.length table)))%Q.
Proof.
  intros display total table. subst display total table.
  unfold detail_table, df_display.
  destruct (String.eqb view_type traditional).
  - split; [vm_compute; reflexivity|].
    split; [vm_compute; reflexivity|].
    split.
    { evaluate_list.
      repeat (apply Forall_cons; [repeat split; vm_compute; reflexivity|]).
      apply Forall_nil. }
    split; [vm_compute; reflexivity|].
    split; [vm_compute; reflexivity|].
    vm_compute. discriminate.
  - split; [vm_compute; reflexivity|].
    split; [vm_compute; reflexivity|].
    split.
    { evaluate_list.
      repeat (apply Forall_cons; [repeat split; vm_compute; reflexivity|]).
      apply Forall_nil. }
    split; [vm_compute; reflexivity|].
    split; [vm_compute; reflexivity|].
    vm_compute. discriminate.
Qed.

(** ** Sorting and selecting *)

Section StableSortFacts.
Context {A : Type} (before : A -> A -> bool).

Lemma insert_sorted_perm (a : A) (l : list A) :
  Permutation (a :: l) (insert_sorted before a l).
Proof.
  induction l as [|b l IH]; simpl.
  - apply Permutation_refl.
  - destruct (before a b).
    + apply Permutation_refl.
    + apply perm_trans with (b :: a :: l).
      * apply perm_swap.
      * apply perm_skip. exact IH.
Qed.

Lemma stable_sort_perm (l : list A) : Permutation l (stable_sort before l).
Proof.
  induction l as [|a l IH]; simpl.
  - apply perm_nil.
  - apply perm_trans with (a :: stable_sort before l).
    + apply perm_skip. exact IH.
    + apply insert_sorted_perm.
Qed.

(** Inserting [a] puts it before the first row it may stand before, so
    among rows that tie it goes in front of those already there. *)
Lemma filter_insert_sorted (p : A -> bool) (a : A) (l : list A) :
  (p a = true -> forall b, In b l -> p b = true -> before a b = true) ->
  filter p (insert_sorted before a l) = filter p (a :: l).
Proof.
  induction l as [|b l IH]; intros Htie; simpl.
  - reflexivity.
  - destruct (before a b) eqn:E.
    + reflexivity.
    + simpl.
      assert (IH' : filter p (insert_sorted before a l) = filter p (a :: l)).
      { apply IH. intros Ha c Hc. apply Htie; [assumption | right; assumption]. }
      rewrite IH'. simpl.
      destruct (p a) eqn:Ea; [|reflexivity].
      destruct (p b) eqn:Eb; [|reflexivity].
      rewrite (Htie eq_refl b (or_introl eq_refl) Eb) in E. discriminate E.
Qed.

(** Stability: rows that tie pairwise keep their source order. *)
Lemma stable_sort_stable (p : A -> bool) (l : list A) :
  (forall a b, p a = true -> p b = true -> before a b = true) ->
  filter p (stable_sort before l) = filter p l.
Proof.
  intros Htie. induction l as [|a l IH]; simpl.
  - reflexivity.
  - rewrite filter_insert_sorted.
    + simpl. rewrite IH. reflexivity.
    + intros Ha b _ Hb. apply Htie; assumption.
Qed.

Hypothesis before_total : forall a b, before a b = true \/ before b a = true.
Hypothesis before_trans :
  forall a b c, before a b = true -> before b c = true -> before a c = true.

Lemma insert_sorted_sorted (a : A) (l : list A) :
  StronglySorted (fun x y => before x y = true) l ->
  StronglySorted (fun x y => before x y = true) (insert_sorted before a l).
Proof.
  induction 1 as [|b l Hs IH Hb]; simpl.
  - constructor; constructor.
  - destruct (before a b) eqn:E.
    + constructor.
      * constructor; assumption.
      * constructor; [assumption|].
        apply Forall_impl with (2 := Hb). intros c Hc.
        apply before_trans with b; assumption.
    + constructor; [assumption|].
      apply Permutation_Forall with (a :: l); [apply insert_sorted_perm|].
      constructor; [|assumption].
      destruct (before_total a b) as [H | H]; [congruence | assumption].
Qed.

Lemma stable_sort_sorted (l : list A) :
  StronglySorted (fun x y => before x y = true) (stable_sort before l).
Proof.
  induction l as [|a l IH]; simpl.
  - constructor.
  - apply insert_sorted_sorted. exact IH.
Qed.

Lemma StronglySorted_suffix (R : A -> A -> Prop) (l1 l2 : list A) :
  StronglySorted R (l1 ++ l2)%list -> StronglySorted R l2.
Proof.
  induction l1 as [|a l1 IH]; simpl; intros H.
  - exact H.
  - inversion H; subst. apply IH. assumption.
Qed.

Lemma filter_none (f : A -> bool) (l : list A) :
  Forall (fun y => f y = false) l -> filter f l = [].
Proof.
  induction 1 as [|y l Hy _ IH]; simpl.
  - reflexivity.
  - rewrite Hy. exact IH.
Qed.

Lemma filter_length_perm (f : A -> bool) (l l' : list A) :
  Permutation l l' -> List.length (filter f l) = List.length (filter f l').
Proof.
  induction 1 as [|a l l' _ IH|a b l|l l' l'' _ IH1 _ IH2]; simpl.
  - reflexivity.
  - destruct (f a); simpl; rewrite IH; reflexivity.
  - destruct (f a), (f b); reflexivity.
  - rewrite IH1. exact IH2.
Qed.

(** A row among the first [n] of the sorted frame has fewer than [n] rows
    that must stand before it. *)
Lemma firstn_overtaken (x : A) (n : nat) (l : list A) :
  In x (firstn n (stable_sort before l)) ->
  (List.length (filter (fun y => negb (before x y)) l) < n)%nat.
Proof.
  intros Hin.
  rewrite (filter_length_perm _ _ _ (stable_sort_perm l)).
  pose proof (stable_sort_sorted l) as Hs.
  pose proof (firstn_le_length n (stable_sort before l)) as Hlen.
  destruct (in_split _ _ Hin) as (l1 & l2 & Hsplit).
  rewrite <- (firstn_skipn n (stable_sort before l)) in Hs |- *.
  rewrite Hsplit in Hs, Hlen |- *.
  rewrite <- app_assoc in Hs |- *.
  apply StronglySorted_suffix in Hs. simpl in Hs.
  inversion Hs as [|? ? _ Hx]; subst.
  rewrite filter_app.
  rewrite (filter_none _ (x :: l2 ++ skipn n (stable_sort before l))).
  - rewrite app_nil_r, length_app in *. simpl in Hlen.
    pose proof (filter_length_le (fun y => negb (before x y)) l1). lia.
  - constructor.
    + destruct (before_total x x) as [H | H]; rewrite H; reflexivity.
    + apply Forall_impl with (2 := Hx). intros y Hy. rewrite Hy. reflexivity.
Qed.
End StableSortFacts.

(** ** Prefecture view: the two rankings *)

Lemma three_way_length (v : Z) (u : list Z) :
  List.length u
  = (List.length (filter (fun k => (v <? k)%Z) u)
     + List.length (filter (fun k => (k =? v)%Z) u)
     + List.length (filter (fun k => (k <? v)%Z) u))%nat.
Proof.
  induction u as [|a u IH]; simpl.
  - reflexivity.
  - destruct (Z.ltb_spec v a), (Z.eqb_spec a v), (Z.ltb_spec a v);
      simpl; lia.
Qed.

(** The distinct values of a column number at most those above [v], plus
    one, plus those below [v], each counted with repetition. *)
Lemma distinct_count_bound (keys : list Z) (v : Z) :
  (distinct_count keys
   <= List.length (filter (fun k => (v <? k)%Z) keys) + 1
      + List.length (filter (fun k => (k <? v)%Z) keys))%nat.
Proof.
  unfold distinct_count.
  set (u := nodup Z.eq_dec keys).
  assert (Hnd : NoDup u) by apply NoDup_nodup.
  assert (Hin : forall f, incl (filter f u) (filter f keys)).
  { intros f k Hk. apply filter_In in Hk. destruct Hk as [Hk Hf].
    apply filter_In. split; [|assumption]. apply (nodup_In Z.eq_dec). exact Hk. }
  rewrite (three_way_length v u).
  pose proof (NoDup_incl_length (NoDup_filter (fun k => (v <? k)%Z) Hnd) (Hin _)) as Hgt.
  pose proof (NoDup_incl_length (NoDup_filter (fun k => (k <? v)%Z) Hnd) (Hin _)) as Hlt.
  assert (Heq : (List.length (filter (fun k => (k =? v)%Z) u) <= 1)%nat).
  { apply (NoDup_incl_length (l' := [v])).
    - apply NoDup_filter. exact Hnd.
    - intros k Hk. apply filter_In in Hk. destruct Hk as [_ Hk].
      apply Z.eqb_eq in Hk. left. symmetry. exact Hk. }
  lia.
Qed.

Lemma filter_map_length {A : Type} (f : A -> Z) (p : Z -> bool) (q : A -> bool)
  (l : list A) :
  (forall a, p (f a) = q a) ->
  List.length (filter p (map f l)) = List.length (filter q l).
Proof.
  intros Hpq. induction l as [|a l IH]; simpl.
  - reflexivity.
  - rewrite Hpq. destruct (q a); simpl; rewrite IH; reflexivity.
Qed.

(** A row among the [n] largest has fewer than [n] rows above it. *)
Lemma nlargest_int_above {R : Type} (n : nat) (key : R -> Z) (df : frame R)
  (a : nat * R) :
  In a (nlargest_int n key df) ->
  (List.length (filter (fun k => (key (snd a) <? k)%Z) (column key df)) < n)%nat.
Proof.
  intros Hin. unfold nlargest_int in Hin.
  apply firstn_overtaken in Hin.
  - unfold column.
    rewrite (filter_map_length _ _
               (fun y => negb (key (snd y) <=? key (snd a)))); [exact Hin|].
    intros y. apply Z.ltb_antisym.
  - intros x y. rewrite !Z.leb_le. lia.
  - intros x y z. rewrite !Z.leb_le. lia.
Qed.

(** A row among the [n] smallest has fewer than [n] rows below it. *)
Lemma nsmallest_int_below {R : Type} (n : nat) (key : R -> Z) (df : frame R)
  (a : nat * R) :
  In a (nsmallest_int n key df) ->
  (List.length (filter (fun k => (k <? key (snd a))%Z) (column key df)) < n)%nat.
Proof.
  intros Hin. unfold nsmallest_int in Hin.
  apply firstn_overtaken in Hin.
  - unfold column.
    rewrite (filter_map_length _ _
               (fun y => negb (key (snd a) <=? key (snd y)))); [exact Hin|].
    intros y. apply Z.ltb_antisym.
  - intros x y. rewrite !Z.leb_le. lia.
  - intros x y z. rewrite !Z.leb_le. lia.
Qed.

Lemma StronglySorted_impl {A : Type} (R R' : A -> A -> Prop) (l : list A) :
  (forall a b, R a b -> R' a b) -> StronglySorted R l -> StronglySorted R' l.
Proof.
  intros Himp. induction 1 as [|a l _ IH Ha].
  - constructor.
  - constructor; [exact IH|].
    apply Forall_impl with (2 := Ha). intros b. apply Himp.
Qed.

(** Rows of equal population keep their source order in both rankings. *)
Lemma rankings_keep_source_order {R : Type} (key : R -> Z) (df : frame R) (v : Z) :
  filter (fun r => key (snd r) =? v)
         (stable_sort (fun a b => key (snd b) <=? key (snd a)) df)
  = filter (fun r => key (snd r) =? v) df /\
  filter (fun r => key (snd r) =? v)
         (stable_sort (fun a b => key (snd a) <=? key (snd b)) df)
  = filter (fun r => key (snd r) =? v) df.
Proof.
  split; apply stable_sort_stable; intros a b Ha Hb;
    apply Z.eqb_eq in Ha, Hb; apply Z.leb_le; lia.
Qed.

(** The rankings are sorted on population and drawn from the frame. *)
Lemma rankings_sorted {R : Type} (n : nat) (key : R -> Z) (df : frame R) :
  StronglySorted (fun a b => key (snd b) <= key (snd a)) (nlargest_int n key df) /\
  StronglySorted (fun a b => key (snd a) <= key (snd b)) (nsmallest_int n key df) /\
  incl (nlargest_int n key df) df /\
  incl (nsmallest_int n key df) df.
Proof.
  assert (Hfirst : forall (P : nat * R -> nat * R -> Prop) l,
             StronglySorted P l -> StronglySorted P (firstn n l)).
  { intros P l Hl. revert n. induction Hl as [|a l Hl IH Ha]; intros [|n]; simpl;
      try constructor.
    - apply IH.
    - apply Forall_forall. intros y Hy.
      rewrite Forall_forall in Ha. apply Ha.
      rewrite <- (firstn_skipn n l). apply in_or_app. left. exact Hy. }
  repeat split.
  - apply Hfirst.
    apply StronglySorted_impl with
      (R := fun a b : nat * R => (key (snd b) <=? key (snd a)) = true).
    + intros a b Hab. apply Z.leb_le. exact Hab.
    + apply stable_sort_sorted.
      * intros x y. rewrite !Z.leb_le. lia.
      * intros x y z. rewrite !Z.leb_le. lia.
  - apply Hfirst.
    apply StronglySorted_impl with
      (R := fun a b : nat * R => (key (snd a) <=? key (snd b)) = true).
    + intros a b Hab. apply Z.leb_le. exact Hab.
    + apply stable_sort_sorted.
      * intros x y. rewrite !Z.leb_le. lia.
      * intros x y z. rewrite !Z.leb_le. lia.
  - intros a Ha. unfold nlargest_int in Ha.
    eapply Permutation_in; [apply Permutation_sym, stable_sort_perm|].
    rewrite <- (firstn_skipn n). apply in_or_app. left. exact Ha.
  - intros a Ha. unfold nsmallest_int in Ha.
    eapply Permutation_in; [apply Permutation_sym, stable_sort_perm|].
    rewrite <- (firstn_skipn n). apply in_or_app. left. exact Ha.
Qed.

(** C7: whenever the population column has at least 20 distinct values, no
    record is both among the ten largest and among the ten smallest by
    population (each a stable sort on population cut after ten rows); not
    even a population value occurs in both selections. *)
Theorem top_10_bottom_10_disjoint (df_pref : frame pref_row)
  (Hdistinct : (20 <= distinct_count (column population df_pref))%nat) :
  (forall r, In r (top_10 df_pref) -> In r (bottom_10 df_pref) -> False) /\
  (forall r1 r2, In r1 (top_10 df_pref) -> In r2 (bottom_10 df_pref) ->
                 snd (snd r1) <> snd (snd r2)).
Proof.
  assert (Hvalues : forall r1 r2, In r1 (top_10 df_pref) -> In r2 (bottom_10 df_pref) ->
                                  snd (snd r1) <> snd (snd r2)).
  { intros r1 r2 H1 H2 Heq.
    unfold top_10, select_columns in H1. apply in_map_iff in H1.
    destruct H1 as (a & <- & Ha).
    unfold bottom_10, select_columns in H2. apply in_map_iff in H2.
    destruct H2 as (b & <- & Hb).
    simpl in Heq.
    apply nlargest_int_above in Ha. apply nsmallest_int_below in Hb.
    rewrite <- Heq in Hb.
    pose proof (distinct_count_bound (column population df_pref) (population (snd a))).
    lia. }
  split; [|exact Hvalues].
  intros r H1 H2. exact (Hvalues r r H1 H2 eq_refl).
Qed.

Lemma top_10_bottom_10_disjoint_witness :
  (20 <= distinct_count (column population load_prefecture_data))%nat /\
  (forall r, In r (top_10 load_prefecture_data) ->
             In r (bottom_10 load_prefecture_data) -> False).
Proof.
  assert (H : (20 <= distinct_count (column population load_prefecture_data))%nat).
  { apply Nat.leb_le. vm_compute. reflexivity. }
  split.
  - exact H.
  - apply (top_10_bottom_10_disjoint load_prefecture_data H).
Defined.

(** ** Density view: the ranking *)

Lemma mask_partition_perm {R : Type} (p : R -> bool) (df : frame R) :
  Permutation df (mask (fun r => negb (p r)) df ++ mask p df)%list.
Proof.
  unfold mask. induction df as [|r df IH]; simpl.
  - apply perm_nil.
  - destruct (p (snd r)); simpl.
    + apply Permutation_cons_app. exact IH.
    + apply perm_skip. exact IH.
Qed.

Lemma sorted_descending_perm {R : Type} (key : R -> float) (df : frame R) :
  Permutation df (sorted_descending key df).
Proof.
  unfold sorted_descending.
  apply perm_trans with (1 := mask_partition_perm (fun r => isnan (key r)) df).
  apply Permutation_app_tail. apply stable_sort_perm.
Qed.

(** *** The order of floats *)









(** *** Sorting rows that can be compared *)

Section SortOn.
Context {A : Type} (before : A -> A -> bool) (P : A -> Prop).
Hypothesis before_total_on :
  forall a b, P a -> P b -> before a b = true \/ before b a = true.
Hypothesis before_trans_on :
  forall a b c, P a -> P b -> P c ->
                before a b = true -> before b c = true -> before a c = true.


End SortOn.





(** *** The density arrangement of any table *)




(** * Further properties of the views *)

(** ** Trend view: the empty series *)

Lemma iloc_last_spec {A : Type} (d : A) (col : list A) :
  iloc_last col = match col with
                  | [] => Raise IndexError
                  | _ :: _ => Ok (last col d)
                  end.
Proof.
  unfold iloc_last.
  destruct col as [|a col] using rev_ind; [reflexivity|].
  rewrite rev_app_distr, last_last. simpl.
  destruct (col ++ [a])%list eqn:E; [|reflexivity].
  apply app_eq_nil in E. destruct E as [_ E]. discriminate E.
Qed.

(** The trend view raises exactly on an empty series, and then it is the
    [IndexError] of reading the last total.  On any other series it shows
    the last total, the wrapped difference between the last and the first
    total, that difference divided by the number of records, and the
    difference as a percentage of the first total. *)
Theorem trend_content_raises_iff_empty (df_time : frame year_row) :
  let totals := column total_population df_time in
  match trend_content df_time with
  | Ok v =>
      df_time <> [] /\
      tv_last v = last totals 0 /\
      tv_change v = wrap64 (last totals 0 - hd 0 totals) /\
      tv_annual_change v = truediv (tv_change v) (Z.of_nat (List.length df_time)) /\
      tv_change_rate v
      = PrimFloat.mul (truediv (tv_change v) (hd 0 totals)) (float_of_int 100)
  | Raise e => e = IndexError /\ df_time = []
  end.
Proof.
  intros totals. subst totals.
  unfold trend_content, annual_change, change_rate, change.
  rewrite (iloc_last_spec 0).
  destruct df_time as [|r rest].
  - split; reflexivity.
  - cbn [column map iloc_first bind hd
         tv_last tv_change tv_annual_change tv_change_rate].
    repeat split. discriminate.
Qed.

(** A series of one record has change 0. *)
Lemma trend_single_record (i : nat) (r : year_row) :
  change [(i, r)] = Ok 0.
Proof.
  unfold change, iloc_last. cbn. rewrite Z.sub_diag. reflexivity.
Qed.

(** ** Age view: tables outside the ten bands *)

Lemma band_total_nil (bands : list string) : band_total bands [] = 0.
Proof. reflexivity. Qed.

Lemma isin_app (l1 l2 : list string) (s : string) :
  isin (l1 ++ l2)%list s = isin l1 s || isin l2 s.
Proof. unfold isin. apply existsb_app. Qed.

Lemma isin_In (values : list string) (s : string) :
  isin values s = true <-> In s values.
Proof.
  unfold isin. rewrite existsb_exists. split.
  - intros (v & Hv & E). apply String.eqb_eq in E. subst v. exact Hv.
  - intros H. exists s. split; [exact H | apply String.eqb_refl].
Qed.

(** The three membership lists do not overlap, and together they hold the
    ten band labels. *)
Lemma band_membership (g : string) :
  (Nat.b2n (isin young_bands g) + Nat.b2n (isin working_bands g)
   + Nat.b2n (isin elderly_bands g))%nat
  = Nat.b2n (isin AgeData.age_groups g).
Proof.
  destruct (isin AgeData.age_groups g) eqn:Eall.
  - apply isin_In in Eall.
    destruct (band_in_one_group g Eall) as [E | [E | E]];
      pose proof (f_equal (fun t => fst (fst t)) E) as E1;
      pose proof (f_equal (fun t => snd (fst t)) E) as E2;
      pose proof (f_equal snd E) as E3;
      cbn [fst snd] in E1, E2, E3; rewrite E1, E2, E3; reflexivity.
  - change AgeData.age_groups
      with (young_bands ++ working_bands ++ elderly_bands)%list in Eall.
    rewrite !isin_app in Eall.
    apply orb_false_iff in Eall. destruct Eall as [E1 Eall].
    apply orb_false_iff in Eall. destruct Eall as [E2 E3].
    change (isin young_bands g = false) in E1.
    change (isin working_bands g = false) in E2.
    change (isin elderly_bands g = false) in E3.
    rewrite E1, E2, E3. reflexivity.
Qed.

Lemma band_totals_known (df_age : frame age_row) :
  band_total young_bands df_age + band_total working_bands df_age
  + band_total elderly_bands df_age
  = band_total AgeData.age_groups df_age.
Proof.
  induction df_age as [|r df IH].
  - reflexivity.
  - rewrite !band_total_cons, <- IH.
    pose proof (band_membership (age_group (snd r))) as H.
    destruct (isin young_bands (age_group (snd r))),
             (isin working_bands (age_group (snd r))),
             (isin elderly_bands (age_group (snd r))),
             (isin AgeData.age_groups (age_group (snd r)));
      simpl in H; try discriminate H; lia.
Qed.

Lemma total_pop_traditional (df_age : frame age_row) :
  total_pop traditional df_age = band_sum AgeData.age_groups df_age.
Proof.
  unfold total_pop. rewrite display_traditional.
  unfold series_sum at 1. cbn [column map snd age_population fold_left].
  unfold young, working, elderly. rewrite !band_sum_wrap.
  rewrite Z.add_0_l, wrap64_add3, band_totals_known. reflexivity.
Qed.

(** In traditional mode the total counts only the rows that carry one of
    the ten band labels, whereas the detailed total counts every row; a row
    with any other label therefore makes the two totals differ. *)
Theorem traditional_total_counts_known_bands :
  (forall df_age,
      total_pop traditional df_age = band_sum AgeData.age_groups df_age /\
      total_pop detailed df_age = series_sum (column age_population df_age)) /\
  (let df_age := range_index [{| age_group := "100歳以上"; age_population := 80000 |}] in
   total_pop traditional df_age = 0 /\ total_pop detailed df_age = 80000).
Proof.
  split.
  - intros df_age. split; [apply total_pop_traditional|].
    unfold total_pop. rewrite display_detailed. reflexivity.
  - split; vm_compute; reflexivity.
Qed.

(** ** Age view: when it raises *)

Lemma traditional_is_not_detailed : String.eqb traditional detailed = false.
Proof. vm_compute. reflexivity. Qed.

Lemma max_group_unfold (view_type : string) (df_age : frame age_row) :
  max_group view_type df_age
  = (i <- idxmax (map (fun r => (fst r, age_population (snd r)))
                      (df_display view_type df_age)) ;;
     loc i (df_display view_type df_age)).
Proof. reflexivity. Qed.

Lemma age_content_of_max_group (view_type : string) (df_age : frame age_row) :
  match max_group view_type df_age with
  | Ok top => exists v, age_content view_type df_age = Ok v /\ av_max_group v = top
  | Raise e => age_content view_type df_age = Raise e
  end.
Proof.
  unfold age_content.
  destruct (max_group view_type df_age) as [top | e]; cbn [bind].
  - eexists. split; reflexivity.
  - reflexivity.
Qed.

(** In traditional mode the age view never raises, whatever the band table:
    three groups are always shown.  In the other mode it raises exactly on
    an empty table, with the [ValueError] of [idxmax]. *)
Theorem age_content_raises_only_on_empty_detail (view_type : string)
  (rows : list age_row) :
  match age_content view_type (range_index rows) with
  | Ok _ => String.eqb view_type traditional = true \/ rows <> []
  | Raise e =>
      e = ValueError /\ String.eqb view_type traditional = false /\ rows = []
  end.
Proof.
  pose proof (age_content_of_max_group view_type (range_index rows)) as Hc.
  pose proof (idxmax_loc_first_max _ (display_labels_NoDup view_type rows)) as Hm.
  rewrite <- max_group_unfold in Hm.
  destruct (String.eqb view_type traditional) eqn:E.
  - destruct (max_group view_type (range_index rows)) as [top | e].
    + destruct Hc as (v & -> & _). left. reflexivity.
    + apply String.eqb_eq in E. subst view_type.
      rewrite display_traditional in Hm. discriminate Hm.
  - destruct rows as [|r rows].
    + assert (Hmax : max_group view_type (range_index []) = Raise ValueError).
      { unfold max_group, df_display. rewrite E. reflexivity. }
      rewrite Hmax in Hc. rewrite Hc. repeat split.
    + destruct (max_group view_type (range_index (r :: rows))) as [top | e].
      * destruct Hc as (v & -> & _). right. discriminate.
      * unfold df_display in Hm. rewrite E in Hm. discriminate Hm.
Qed.

Lemma band_total_unknown (bands : list string) (df_age : frame age_row) :
  Forall (fun r => isin bands (age_group (snd r)) = false) df_age ->
  band_total bands df_age = 0.
Proof.
  induction 1 as [|r df Hr _ IH].
  - reflexivity.
  - rewrite band_total_cons, Hr, IH. reflexivity.
Qed.

Lemma unknown_in_each_group (g : string) :
  isin AgeData.age_groups g = false ->
  isin young_bands g = false /\ isin working_bands g = false
  /\ isin elderly_bands g = false.
Proof.
  intros H. pose proof (band_membership g) as Hm. rewrite H in Hm.
  destruct (isin young_bands g), (isin working_bands g), (isin elderly_bands g);
    simpl in Hm; try discriminate Hm; repeat split.
Qed.

(** The traditional view reads the band table only through the three group
    sums. *)
Lemma age_content_traditional_by_sums (df1 df2 : frame age_row) :
  young df1 = young df2 -> working df1 = working df2 -> elderly df1 = elderly df2 ->
  age_content traditional df1 = age_content traditional df2.
Proof.
  intros Hy Hw He.
  unfold age_content, max_group, elderly_text, elderly_ratio, elderly_label,
    detail_table, total_pop.
  rewrite !display_traditional, String.eqb_refl, traditional_is_not_detailed.
  rewrite Hy, Hw, He. reflexivity.
Qed.

(** When no row carries one of the ten band labels (an empty table, for
    one), traditional mode still renders: three groups of population 0, the
    youth group reported as the largest (the first of the tie), and an
    elderly ratio of 0/0, shown as "nan%". *)
Theorem traditional_view_without_known_bands (df_age : frame age_row)
  (Hunknown : Forall (fun r => isin AgeData.age_groups (age_group (snd r)) = false)
                     df_age) :
  exists v,
    age_content traditional df_age = Ok v /\
    column age_population (data_frame (av_bar v)) = [0; 0; 0] /\
    av_total_pop v = 0 /\
    av_max_group v = {| age_group := "年少人口（0-19歳）"; age_population := 0 |} /\
    isnan (av_elderly_ratio v) = true /\
    av_elderly_text v = "nan%".
Proof.
  assert (Hsum : forall bands,
             (forall g, isin AgeData.age_groups g = false -> isin bands g = false) ->
             band_sum bands df_age = band_sum bands []).
  { intros bands Hb. rewrite !band_sum_wrap, band_total_unknown; [reflexivity|].
    apply Forall_impl with (2 := Hunknown). intros r. apply Hb. }
  rewrite (age_content_traditional_by_sums df_age []).
  - eexists. split; [vm_compute; reflexivity|].
    repeat split; vm_compute; reflexivity.
  - apply Hsum. intros g Hg. apply (unknown_in_each_group g Hg).
  - apply Hsum. intros g Hg. apply (unknown_in_each_group g Hg).
  - apply Hsum. intros g Hg. apply (unknown_in_each_group g Hg).
Qed.

Lemma traditional_view_without_known_bands_witness :
  exists v,
    age_content traditional
      (range_index [{| age_group := "100歳以上"; age_population := 80000 |}]) = Ok v /\
    av_elderly_text v = "nan%".
Proof.
  destruct (traditional_view_without_known_bands
              (range_index [{| age_group := "100歳以上"; age_population := 80000 |}]))
    as (v & Hv & _ & _ & _ & _ & Ht).
  - repeat constructor.
  - exists v. split; assumption.
Defined.

(** ** Age view: the two modes on a table of known bands *)

Lemma band_total_all_known (df_age : frame age_row) :
  Forall (fun r => In (age_group (snd r)) AgeData.age_groups) df_age ->
  band_total AgeData.age_groups df_age = fold_left Z.add (column age_population df_age) 0.
Proof.
  intros H. rewrite <- band_totals_known. apply band_totals_cover. exact H.
Qed.

(** For every table whose rows all carry band labels, the two modes report
    the same total, the same elderly ratio and the same ratio text. *)
Theorem modes_agree_on_known_bands (df_age : frame age_row)
  (Hbands : Forall (fun r => In (age_group (snd r)) AgeData.age_groups) df_age) :
  total_pop traditional df_age = total_pop detailed df_age /\
  elderly_ratio traditional df_age = elderly_ratio detailed df_age /\
  elderly_text traditional df_age = elderly_text detailed df_age.
Proof.
  assert (Ht : total_pop traditional df_age = total_pop detailed df_age).
  { rewrite total_pop_traditional, band_sum_wrap, band_total_all_known by assumption.
    unfold total_pop. rewrite display_detailed. reflexivity. }
  assert (Hr : elderly_ratio traditional df_age = elderly_ratio detailed df_age).
  { unfold elderly_ratio.
    rewrite String.eqb_refl, detailed_is_not_traditional, Ht.
    rewrite display_traditional, mask_elderly_group.
    cbn [column map snd age_population].
    unfold elderly, elderly_60plus.
    rewrite band_sum_wrap, series_sum_singleton_wrapped. reflexivity. }
  split; [exact Ht|]. split; [exact Hr|].
  unfold elderly_text. rewrite Hr. reflexivity.
Qed.

Lemma modes_agree_on_known_bands_witness :
  elderly_ratio traditional
    (range_index [{| age_group := "70-79歳"; age_population := 5 |};
                  {| age_group := "0-9歳"; age_population := 3 |};
                  {| age_group := "70-79歳"; age_population := 7 |}])
  = elderly_ratio detailed
      (range_index [{| age_group := "70-79歳"; age_population := 5 |};
                    {| age_group := "0-9歳"; age_population := 3 |};
                    {| age_group := "70-79歳"; age_population := 7 |}]).
Proof.
  apply modes_agree_on_known_bands.
  repeat (apply Forall_cons; [solve_In|]). apply Forall_nil.
Defined.

(** ** The dispatcher on every selection *)

(** Whatever the selection and the radio value, the script's main part
    never raises, and the view it builds is the one the selection names. *)
Theorem main_content_total (data_type view_type : string) :
  match main_content data_type view_type with
  | Ok (Some (PrefectureView _)) => data_type = "都道府県別人口"
  | Ok (Some (AgeView _)) => data_type = "年齢別人口"
  | Ok (Some (TrendView _)) => data_type = "人口推移"
  | Ok (Some (DensityView _)) => data_type = "人口密度"
  | Ok None =>
      data_type <> "都道府県別人口" /\ data_type <> "年齢別人口" /\
      data_type <> "人口推移" /\ data_type <> "人口密度"
  | Raise _ => False
  end.
Proof.
  unfold main_content.
  destruct (String.eqb_spec data_type "都道府県別人口") as [E1 | N1].
  { assert (H : exists v, prefecture_content load_prefecture_data = Ok v)
      by (eexists; vm_compute; reflexivity).
    destruct H as (v & ->). cbn [bind]. exact E1. }
  destruct (String.eqb_spec data_type "年齢別人口") as [E2 | N2].
  { pose proof (age_content_of_max_group view_type load_age_data) as Hc.
    pose proof (idxmax_loc_first_max _
                  (display_labels_NoDup view_type (map snd load_age_data))) as Hm.
    change (range_index (map snd load_age_data)) with load_age_data in Hm.
    rewrite <- max_group_unfold in Hm.
    destruct (max_group view_type load_age_data) as [top | e].
    - destruct Hc as (v & -> & _). cbn [bind]. exact E2.
    - exfalso. unfold df_display in Hm.
      destruct (String.eqb view_type traditional); discriminate Hm. }
  destruct (String.eqb_spec data_type "人口推移") as [E3 | N3].
  { assert (H : exists v, trend_content load_time_series_data = Ok v)
      by (eexists; vm_compute; reflexivity).
    destruct H as (v & ->). cbn [bind]. exact E3. }
  destruct (String.eqb_spec data_type "人口密度") as [E4 | N4].
  { assert (H : exists v, density_content load_prefecture_data = Ok v)
      by (eexists; vm_compute; reflexivity).
    destruct H as (v & ->). cbn [bind]. exact E4. }
  repeat split; assumption.
Qed.

(** ** Prefecture view: the rankings on any table *)

Lemma StronglySorted_map {A B : Type} (f : A -> B) (R : B -> B -> Prop) (l : list A) :
  StronglySorted (fun a b => R (f a) (f b)) l -> StronglySorted R (map f l).
Proof.
  induction 1 as [|a l _ IH Ha]; simpl.
  - constructor.
  - constructor; [exact IH|].
    apply Forall_map. exact Ha.
Qed.

Lemma stable_sort_length {A : Type} (before : A -> A -> bool) (l : list A) :
  List.length (stable_sort before l) = List.length l.
Proof.
  symmetry. apply Permutation_length, stable_sort_perm.
Qed.

(** Each ranking has ten rows, or all of them when the table has fewer; it
    is ordered on population (descending for the top, ascending for the
    bottom); and each of its rows is the name and population of a table
    row, under that row's label. *)
Theorem rankings_shape (df_pref : frame pref_row) :
  List.length (top_10 df_pref) = Nat.min 10 (List.length df_pref) /\
  List.length (bottom_10 df_pref) = Nat.min 10 (List.length df_pref) /\
  StronglySorted (fun a b => snd (snd b) <= snd (snd a)) (top_10 df_pref) /\
  StronglySorted (fun a b => snd (snd a) <= snd (snd b)) (bottom_10 df_pref) /\
  (forall r, In r (top_10 df_pref) \/ In r (bottom_10 df_pref) ->
             exists row, In (fst r, row) df_pref /\
                         snd r = (prefecture row, population row)).
Proof.
  destruct (rankings_sorted 10 population df_pref) as (Hs1 & Hs2 & Hi1 & Hi2).
  unfold top_10, bottom_10, select_columns.
  repeat split.
  - unfold nlargest_int. rewrite length_map, length_firstn, stable_sort_length.
    reflexivity.
  - unfold nsmallest_int. rewrite length_map, length_firstn, stable_sort_length.
    reflexivity.
  - apply (StronglySorted_map
             (fun r : nat * pref_row => (fst r, name_and_population (snd r)))
             (fun a b => snd (snd b) <= snd (snd a))).
    exact Hs1.
  - apply (StronglySorted_map
             (fun r : nat * pref_row => (fst r, name_and_population (snd r)))
             (fun a b => snd (snd a) <= snd (snd b))).
    exact Hs2.
  - intros r [H | H]; apply in_map_iff in H; destruct H as ([i row] & <- & Hin);
      exists row; (split; [|reflexivity]); simpl.
    + apply Hi1. exact Hin.
    + apply Hi2. exact Hin.
Qed.

(** On a table of at most ten rows both rankings list every row, so they
    hold the same rows: the disjointness of the two needs a larger table. *)
Theorem rankings_coincide_on_small_table (df_pref : frame pref_row)
  (Hsmall : (List.length df_pref <= 10)%nat) :
  Permutation (select_columns name_and_population df_pref) (top_10 df_pref) /\
  Permutation (top_10 df_pref) (bottom_10 df_pref).
Proof.
  assert (Htop : Permutation (select_columns name_and_population df_pref)
                             (top_10 df_pref)).
  { unfold top_10, select_columns, nlargest_int.
    rewrite firstn_all2 by (rewrite stable_sort_length; exact Hsmall).
    apply Permutation_map, stable_sort_perm. }
  assert (Hbottom : Permutation (select_columns name_and_population df_pref)
                                (bottom_10 df_pref)).
  { unfold bottom_10, select_columns, nsmallest_int.
    rewrite firstn_all2 by (rewrite stable_sort_length; exact Hsmall).
    apply Permutation_map, stable_sort_perm. }
  split; [exact Htop|].
  apply perm_trans with (2 := Hbottom). apply Permutation_sym. exact Htop.
Qed.

Lemma rankings_coincide_on_small_table_witness :
  Permutation
    (top_10 (pref_frame ["東"; "西"] [5; 9] [1; 2] [5%float; 4.5%float]))
    (bottom_10 (pref_frame ["東"; "西"] [5; 9] [1; 2] [5%float; 4.5%float])).
Proof.
  apply rankings_coincide_on_small_table. simpl. lia.
Defined.

Lemma filter_map_commute {A B : Type} (f : A -> B) (p : B -> bool) (l : list A) :
  filter p (map f l) = map f (filter (fun a => p (f a)) l).
Proof.
  induction l as [|a l IH]; simpl.
  - reflexivity.
  - destruct (p (f a)); simpl; rewrite IH; reflexivity.
Qed.

(** Rows of equal population appear in a ranking in the order they have in
    the table: the rows of a ranking with population [v] are the first of
    the table's rows with population [v]. *)
Theorem rankings_ties_in_source_order (df_pref : frame pref_row) (v : Z) :
  (exists rest,
      (filter (fun r => snd (snd r) =? v) (top_10 df_pref) ++ rest)%list
      = filter (fun r => snd (snd r) =? v)
               (select_columns name_and_population df_pref)) /\
  (exists rest,
      (filter (fun r => snd (snd r) =? v) (bottom_10 df_pref) ++ rest)%list
      = filter (fun r => snd (snd r) =? v)
               (select_columns name_and_population df_pref)).
Proof.
  destruct (rankings_keep_source_order population df_pref v) as [Hd Ha].
  unfold top_10, bottom_10, select_columns, nlargest_int, nsmallest_int.
  rewrite !filter_map_commute. cbn [snd name_and_population].
  split.
  - eexists. rewrite <- Hd.
    rewrite <- (firstn_skipn 10 (stable_sort _ df_pref)) at 2.
    rewrite filter_app, map_app. reflexivity.
  - eexists. rewrite <- Ha.
    rewrite <- (firstn_skipn 10 (stable_sort _ df_pref)) at 2.
    rewrite filter_app, map_app. reflexivity.
Qed.

Lemma fold_left_max_spec (l : list Z) :
  forall z, In (fold_left Z.max l z) (z :: l) /\
            Forall (fun k => k <= fold_left Z.max l z) (z :: l).
Proof.
  induction l as [|a l IH]; intros z; simpl.
  - split; [left; reflexivity|]. constructor; [lia | constructor].
  - destruct (IH (Z.max z a)) as [Hin Hall].
    inversion Hall as [|? ? Hm Hl]; subst. split.
    + destruct Hin as [Hin | Hin]; [|right; right; exact Hin].
      destruct (Z.max_spec z a) as [[_ E] | [_ E]].
      * right. left. rewrite <- Hin. symmetry. exact E.
      * left. rewrite <- Hin. symmetry. exact E.
    + constructor; [lia|]. constructor; [lia | exact Hl].
Qed.

Lemma fold_left_min_spec (l : list Z) :
  forall z, In (fold_left Z.min l z) (z :: l) /\
            Forall (fun k => fold_left Z.min l z <= k) (z :: l).
Proof.
  induction l as [|a l IH]; intros z; simpl.
  - split; [left; reflexivity|]. constructor; [lia | constructor].
  - destruct (IH (Z.min z a)) as [Hin Hall].
    inversion Hall as [|? ? Hm Hl]; subst. split.
    + destruct Hin as [Hin | Hin]; [|right; right; exact Hin].
      destruct (Z.min_spec z a) as [[_ E] | [_ E]].
      * left. rewrite <- Hin. symmetry. exact E.
      * right. left. rewrite <- Hin. symmetry. exact E.
    + constructor; [lia|]. constructor; [lia | exact Hl].
Qed.

(** The head of a sorted frame bounds every row of the source frame. *)
Lemma sorted_head_bounds {A : Type} (before : A -> A -> bool) (l : list A) :
  (forall a b, before a b = true \/ before b a = true) ->
  (forall a b c, before a b = true -> before b c = true -> before a c = true) ->
  match stable_sort before l with
  | [] => l = []
  | a :: _ => In a l /\ Forall (fun b => before a b = true) l
  end.
Proof.
  intros Htot Htrans.
  pose proof (stable_sort_perm before l) as Hp.
  pose proof (stable_sort_sorted before Htot Htrans l) as Hs.
  destruct (stable_sort before l) as [|a s].
  - apply Permutation_sym, Permutation_nil in Hp. exact Hp.
  - split.
    + apply (Permutation_in a (Permutation_sym Hp)). left. reflexivity.
    + apply Permutation_Forall with (1 := Permutation_sym Hp).
      inversion Hs; subst. constructor; [|assumption].
      destruct (Htot a a) as [H | H]; exact H.
Qed.

(** The summary's 最大人口 is the population of the first row of the top
    ranking and its 最小人口 that of the first row of the bottom ranking;
    the two numbers are NaN exactly on an empty table. *)
Theorem summary_extremes_head_rankings (df_pref : frame pref_row) :
  ps_max (summary df_pref)
  = option_map (fun r => snd (snd r)) (hd_error (top_10 df_pref)) /\
  ps_min (summary df_pref)
  = option_map (fun r => snd (snd r)) (hd_error (bottom_10 df_pref)) /\
  (ps_max (summary df_pref) = None <-> df_pref = []) /\
  (ps_min (summary df_pref) = None <-> df_pref = []).
Proof.
  split; [|split; [|split]].
  - unfold summary, top_10, select_columns, nlargest_int. cbn [ps_max].
    pose proof (sorted_head_bounds
                  (fun a b : nat * pref_row => population (snd b) <=? population (snd a))
                  df_pref) as H.
    destruct (stable_sort _ df_pref) as [|a s].
    + rewrite H; [reflexivity | |].
      * intros x y. rewrite !Z.leb_le. lia.
      * intros x y z. rewrite !Z.leb_le. lia.
    + destruct H as [Hin Hall].
      * intros x y. rewrite !Z.leb_le. lia.
      * intros x y z. rewrite !Z.leb_le. lia.
      * destruct df_pref as [|r df]; [contradiction|].
        cbn [firstn map hd_error option_map snd name_and_population column series_max].
        destruct (fold_left_max_spec (map (fun r => population (snd r)) df)
                                     (population (snd r))) as [Hm Hb].
        change (population (snd r) :: map (fun r => population (snd r)) df)
          with (map (fun r : nat * pref_row => population (snd r)) (r :: df)) in Hm, Hb.
        apply in_map_iff in Hm. destruct Hm as (x & Hx & Hxin).
        rewrite Forall_map in Hb. rewrite Forall_forall in Hb, Hall.
        specialize (Hb a Hin). specialize (Hall x Hxin). cbv beta in Hb, Hall.
        apply Z.leb_le in Hall. f_equal. unfold column in *. lia.
  - unfold summary, bottom_10, select_columns, nsmallest_int. cbn [ps_min].
    pose proof (sorted_head_bounds
                  (fun a b : nat * pref_row => population (snd a) <=? population (snd b))
                  df_pref) as H.
    destruct (stable_sort _ df_pref) as [|a s].
    + rewrite H; [reflexivity | |].
      * intros x y. rewrite !Z.leb_le. lia.
      * intros x y z. rewrite !Z.leb_le. lia.
    + destruct H as [Hin Hall].
      * intros x y. rewrite !Z.leb_le. lia.
      * intros x y z. rewrite !Z.leb_le. lia.
      * destruct df_pref as [|r df]; [contradiction|].
        cbn [firstn map hd_error option_map snd name_and_population column series_min].
        destruct (fold_left_min_spec (map (fun r => population (snd r)) df)
                                     (population (snd r))) as [Hm Hb].
        change (population (snd r) :: map (fun r => population (snd r)) df)
          with (map (fun r : nat * pref_row => population (snd r)) (r :: df)) in Hm, Hb.
        apply in_map_iff in Hm. destruct Hm as (x & Hx & Hxin).
        rewrite Forall_map in Hb. rewrite Forall_forall in Hb, Hall.
        specialize (Hb a Hin). specialize (Hall x Hxin). cbv beta in Hb, Hall.
        apply Z.leb_le in Hall. f_equal. unfold column in *. lia.
  - destruct df_pref; split; intros H; try reflexivity; discriminate H.
  - destruct df_pref; split; intros H; try reflexivity; discriminate H.
Qed.

(** ** Numbers shown with thousands separators *)

Lemma uint_digits_no_comma (d : Decimal.uint) :
  Forall (fun c => Ascii.eqb c ","%char = false)
         (list_ascii_of_string (NilEmpty.string_of_uint d)).
Proof.
  induction d; simpl; constructor; try reflexivity; assumption.
Qed.

Lemma str_int_digits_no_comma (z : Z) :
  Forall (fun c => Ascii.eqb c ","%char = false)
         (list_ascii_of_string (str_int (Z.abs z))).
Proof.
  unfold str_int.
  destruct z as [|p|p]; simpl Z.abs; unfold Z.to_int, NilZero.string_of_int,
    NilZero.string_of_uint.
  - repeat constructor.
  - destruct (Pos.to_uint p) eqn:E; try apply uint_digits_no_comma.
    repeat constructor.
  - destruct (Pos.to_uint p) eqn:E; try apply uint_digits_no_comma.
    repeat constructor.
Qed.

Lemma str_int_sign (z : Z) :
  str_int z = ((if (z <? 0)%Z then "-" else "") ++ str_int (Z.abs z))%string.
Proof.
  destruct z; reflexivity.
Qed.

Lemma filter_group_digits (k : nat) (digits : list ascii) :
  Forall (fun c => Ascii.eqb c ","%char = false) digits ->
  filter (fun c => negb (Ascii.eqb c ","%char)) (group_digits k digits) = digits.
Proof.
  intros H. revert k. induction H as [|d rest Hd _ IH]; intros k; simpl.
  - reflexivity.
  - destruct (Nat.eqb k 3); simpl; rewrite Hd; simpl; rewrite IH; reflexivity.
Qed.

(** Separators only: taking the commas out of [format(n, ",")] gives back
    the plain decimal numeral of [n], sign included. *)
Theorem format_thousands_round_trip (z : Z) :
  remove_commas (format_thousands z) = str_int z.
Proof.
  rewrite (str_int_sign z).
  unfold remove_commas, format_thousands.
  pose proof (str_int_digits_no_comma z) as Hd.
  set (digits := list_ascii_of_string (str_int (Z.abs z))) in *.
  assert (Hbody :
            filter (fun c => negb (Ascii.eqb c ","%char))
                   (rev (group_digits 0 (rev digits))) = digits).
  { rewrite filter_rev, filter_group_digits.
    - apply rev_involutive.
    - apply Forall_rev. exact Hd. }
  destruct (z <? 0)%Z; simpl.
  - rewrite list_ascii_of_string_of_list_ascii, Hbody.
    subst digits. rewrite string_of_list_ascii_of_string. reflexivity.
  - rewrite list_ascii_of_string_of_list_ascii, Hbody.
    subst digits. rewrite string_of_list_ascii_of_string. reflexivity.
Qed.

(** ** Substring search *)

Lemma prefix_spec (p s : string) :
  String.prefix p s = true <-> exists post, s = (p ++ post)%string.
Proof.
  revert s. induction p as [|a p IH]; intros s.
  - split; [intros _; exists s; reflexivity | intros _; destruct s; reflexivity].
  - destruct s as [|b s]; simpl.
    + split; [discriminate | intros (post & H); discriminate H].
    + destruct (ascii_dec a b) as [-> | N].
      * rewrite IH. split; intros (post & H); exists post.
        -- rewrite H. reflexivity.
        -- injection H as H. exact H.
      * split; [discriminate|]. intros (post & H). injection H as Hb _.
        exfalso. apply N. symmetry. exact Hb.
Qed.

(** [contains pat s] holds exactly when [pat] occurs in [s]. *)
Theorem contains_spec (pat s : string) :
  contains pat s = true <-> exists pre post, s = (pre ++ pat ++ post)%string.
Proof.
  induction s as [|a s IH].
  - cbn [contains]. rewrite orb_false_r, prefix_spec. split.
    + intros (post & H). exists "", post. exact H.
    + intros (pre & post & H). destruct pre as [|c pre]; [|discriminate H].
      exists post. exact H.
  - cbn [contains]. rewrite orb_true_iff, prefix_spec, IH. split.
    + intros [(post & H) | (pre & post & H)].
      * exists "", post. exact H.
      * exists (String a pre), post. rewrite H. reflexivity.
    + intros (pre & post & H). destruct pre as [|c pre].
      * left. exists post. exact H.
      * right. injection H as _ H. exists pre, post. exact H.
Qed.

(** ** Column sums that fit in 64 bits *)

Lemma fold_left_add_exact (col : list Z) :
  fold_left Z.add col 0 = exact_total col.
Proof.
  induction col as [|z col IH]; simpl.
  - reflexivity.
  - rewrite fold_left_add_acc, IH. reflexivity.
Qed.

Lemma wrap64_in_range (z : Z) : - 2 ^ 63 <= z < 2 ^ 63 -> wrap64 z = z.
Proof.
  intros H. unfold wrap64. rewrite Z.mod_small; lia.
Qed.

(** A sum shown by the prefecture view or the age view is the true sum of
    the column whenever that fits in 64 bits. *)
Theorem sums_exact_in_range (df_pref : frame pref_row) (df_age : frame age_row)
  (Hpref : - 2 ^ 63 <= exact_total (column population df_pref) < 2 ^ 63)
  (Hage : - 2 ^ 63 <= exact_total (column age_population df_age) < 2 ^ 63) :
  ps_total (summary df_pref) = exact_total (column population df_pref) /\
  total_pop detailed df_age = exact_total (column age_population df_age).
Proof.
  split.
  - unfold summary, series_sum. cbn [ps_total].
    rewrite fold_left_add_exact. apply wrap64_in_range. exact Hpref.
  - unfold total_pop, series_sum. rewrite display_detailed, fold_left_add_exact.
    apply wrap64_in_range. exact Hage.
Qed.

Lemma sums_exact_in_range_witness :
  ps_total (summary load_prefecture_data) = 126158903 /\
  total_pop detailed load_age_data = 121500000.
Proof.
  apply (sums_exact_in_range load_prefecture_data load_age_data);
    vm_compute; (split; [discriminate | reflexivity]).
Defined.

(** Beyond 64 bits the sum wraps around, as numpy's does. *)
Lemma sum_wraps_beyond_range :
  series_sum [2 ^ 62; 2 ^ 62] = - 2 ^ 63.
Proof. vm_compute. reflexivity. Qed.

(** ** Density view on any table *)

Lemma px_scatter_spec {R : Type} (size_column : list Z) (description : figure R) :
  match px_scatter size_column description with
  | Ok chart => chart = description /\ Forall (fun z => 0 <= z) size_column
  | Raise e => e = ValueError /\ Exists (fun z => z < 0) size_column
  end.
Proof.
  unfold px_scatter.
  destruct (forallb (fun z => 0 <=? z) size_column) eqn:E.
  - split; [reflexivity|].
    rewrite forallb_forall in E. apply Forall_forall.
    intros z Hz. apply Z.leb_le, E, Hz.
  - split; [reflexivity|].
    apply Exists_exists.
    induction size_column as [|z col IH]; simpl in E; [discriminate E|].
    destruct (0 <=? z) eqn:Ez.
    + destruct (IH E) as (w & Hw & Hneg). exists w. split; [right; exact Hw | exact Hneg].
    + exists z. split; [left; reflexivity|]. apply Z.leb_gt. exact Ez.
Qed.

(** The density ranking has twenty rows, or all of them when the table has
    fewer, and its rows are rows of the table, each taken once.  The view
    itself raises exactly when a population is negative, with the
    [ValueError] of the scatter chart's marker size; otherwise it shows the
    ranking and a scatter chart drawn from the whole table. *)
Theorem density_ranking_shape (df_pref : frame pref_row) :
  let top := data_frame (fig df_pref) in
  List.length top = Nat.min 20 (List.length df_pref) /\
  incl top df_pref /\
  (exists rest, Permutation df_pref (top ++ rest)%list) /\
  match density_content df_pref with
  | Ok v =>
      Forall (fun r => 0 <= population (snd r)) df_pref /\
      dv_fig v = fig df_pref /\
      data_frame (dv_fig2 v) = df_pref /\
      size (dv_fig2 v) = Some "人口"
  | Raise e =>
      e = ValueError /\ Exists (fun r => population (snd r) < 0) df_pref
  end.
Proof.
  intros top. subst top. cbn [fig data_frame]. unfold nlargest_float.
  pose proof (sorted_descending_perm density df_pref) as Hp.
  split; [|split; [|split]].
  - rewrite length_firstn, <- (Permutation_length Hp). reflexivity.
  - intros r Hr. apply (Permutation_in r (Permutation_sym Hp)).
    rewrite <- (firstn_skipn 20). apply in_or_app. left. exact Hr.
  - exists (skipn 20 (sorted_descending density df_pref)).
    rewrite firstn_skipn. exact Hp.
  - unfold density_content, fig2. cbv zeta.
    match goal with
    | |- context [px_scatter ?c ?d] =>
        pose proof (px_scatter_spec c d) as Hs; destruct (px_scatter c d) as [chart | e]
    end; cbn [bind].
    + destruct Hs as [-> Hall]. cbn [dv_fig dv_fig2 data_frame size].
      repeat split. unfold column in Hall. rewrite Forall_map in Hall. exact Hall.
    + destruct Hs as [-> Hex]. split; [reflexivity|].
      unfold column in Hex. rewrite Exists_map in Hex. exact Hex.
Qed.

(** ** Prefecture view on any table *)

(** The prefecture view raises exactly when a population is negative, with
    the [ValueError] of the scatter chart's marker size, and then before any
    ranking is shown; otherwise it shows a scatter chart drawn from the
    whole table and the two rankings. *)
Theorem prefecture_content_raises_iff_negative (df_pref : frame pref_row) :
  match prefecture_content df_pref with
  | Ok v =>
      Forall (fun r => 0 <= population (snd r)) df_pref /\
      data_frame (pv_fig v) = df_pref /\
      size (pv_fig v) = Some "人口" /\
      color (pv_fig v) = Some "人口密度" /\
      pv_top_10 v = top_10 df_pref /\
      pv_bottom_10 v = bottom_10 df_pref
  | Raise e =>
      e = ValueError /\ Exists (fun r => population (snd r) < 0) df_pref
  end.
Proof.
  unfold prefecture_content.
  match goal with
  | |- context [px_scatter ?c ?d] =>
      pose proof (px_scatter_spec c d) as Hs; destruct (px_scatter c d) as [chart | e]
  end; cbn [bind].
  - destruct Hs as [-> Hall]. cbn [pv_fig pv_top_10 pv_bottom_10 data_frame size color].
    repeat split. unfold column in Hall. rewrite Forall_map in Hall. exact Hall.
  - destruct Hs as [-> Hex]. split; [reflexivity|].
    unfold column in Hex. rewrite Exists_map in Hex. exact Hex.
Qed.

(** ** Age view: the pyramid chart *)

Lemma string_leb_trans (s1 s2 s3 : string) :
  String.leb s1 s2 = true -> String.leb s2 s3 = true -> String.leb s1 s3 = true.
Proof.
  unfold String.leb.
  revert s2 s3. induction s1 as [|c1 s1 IH]; intros [|c2 s2] [|c3 s3];
    simpl; try reflexivity; try discriminate.
  unfold Ascii.compare.
  destruct (N.compare_spec (N_of_ascii c1) (N_of_ascii c2)) as [E12 | L12 | G12];
    try discriminate.
  - destruct (N.compare_spec (N_of_ascii c2) (N_of_ascii c3)) as [E23 | L23 | G23];
      try discriminate.
    + rewrite E12, E23, N.compare_refl. apply IH.
    + rewrite E12. apply N.compare_lt_iff in L23. rewrite L23. reflexivity.
  - destruct (N.compare_spec (N_of_ascii c2) (N_of_ascii c3)) as [E23 | L23 | G23];
      try discriminate.
    + rewrite <- E23. apply N.compare_lt_iff in L12. rewrite L12. reflexivity.
    + assert (L13 : (N_of_ascii c1 < N_of_ascii c3)%N) by lia.
      apply N.compare_lt_iff in L13. rewrite L13. reflexivity.
Qed.

(** The pyramid chart is drawn in detailed mode only, from the rows of the
    band table arranged by band label. *)
Theorem pyramid_only_in_detail (view_type : string) (df_age : frame age_row) :
  match age_content view_type df_age with
  | Ok v =>
      match av_pyramid v with
      | Some chart =>
          view_type = detailed /\
          Permutation df_age (data_frame chart) /\
          StronglySorted
            (fun a b => String.leb (age_group (snd a)) (age_group (snd b)) = true)
            (data_frame chart)
      | None => view_type <> detailed
      end
  | Raise _ => True
  end.
Proof.
  unfold age_content.
  destruct (max_group view_type df_age) as [top | e]; cbn [bind]; [|exact I].
  cbn [av_pyramid].
  destruct (String.eqb_spec view_type detailed) as [E | N]; [|exact N].
  cbn [data_frame]. split; [exact E|]. split.
  - apply stable_sort_perm.
  - apply (stable_sort_sorted
             (fun a b : nat * age_row =>
                String.leb (age_group (snd a)) (age_group (snd b)))).
    + intros a b. apply String.leb_total.
    + intros a b c. apply string_leb_trans.
Qed.
